(** * Decision and position lifecycle engine (src/services/tradingEngine.js)

    A shallow embedding of the [TradingEngine] class: the risk profile
    table, the currency identifier parser, the fallback heuristic, the
    batch decision resolver, and the position ledger with its liquidation
    sweep; then its callers in index.js (currency selection and the trading
    cycle), the profile selection of ui/terminal.js and
    strategies/baseStrategy.js, and the response checks of the market data
    client in services/bitquery.js.

    Conventions of the embedding.
    - A JavaScript number is an IEEE 754 binary64 value: Rocq's primitive
      [float], whose operations round as the JavaScript ones do.
    - A JavaScript string is a [string] of bytes. Identifiers, addresses and
      action words are ASCII, where bytes and UTF-16 code units coincide.
      [String.prototype.toUpperCase] and [toLowerCase] map all of Unicode
      and are parameters of the functions that call them.
    - An exception is a [Throw] of the result type [Js.Result]; [try]/[catch]
      is [Js.try_catch].
    - [async] methods are run to completion one after the other: the engine
      has a single thread of control and no two calls interleave.
    - Logging is not modelled. *)

Set Warnings "-inexact-float,-register-all,-clear-no-such-hyp".
From Stdlib Require Import Floats ZArith Ascii String.
From stdpp Require Import base option strings list gmap pretty.

Local Open Scope string_scope.
Local Open Scope nat_scope.

(* ===================================================================== *)
(** ** JavaScript values and primitives used by the engine *)
(* ===================================================================== *)

Module Js.

(** *** Exceptions *)

Inductive Error :=
| TypeError (msg : string)
| SyntaxError (msg : string)
| PlainError (msg : string).

Inductive Result (A : Type) :=
| Ok (a : A)
| Throw (e : Error).
Arguments Ok {A} a.
Arguments Throw {A} e.

Definition bind {A B} (r : Result A) (k : A -> Result B) : Result B :=
  match r with
  | Ok a => k a
  | Throw e => Throw e
  end.

(** [try { body } catch (error) { handler }] *)
Definition try_catch {A} (body : Result A) (handler : Error -> Result A)
  : Result A :=
  match body with
  | Ok a => Ok a
  | Throw e => handler e
  end.

(** [items.map(f)] for a callback that may throw: the first exception
    leaves the loop. *)
Fixpoint map_throwing {A B} (f : A -> Result B) (items : list A)
  : Result (list B) :=
  match items with
  | [] => Ok []
  | a :: rest =>
      bind (f a) (fun b =>
      bind (map_throwing f rest) (fun bs => Ok (b :: bs)))
  end.

(** *** Numbers *)

Definition gt (a b : float) : bool := PrimFloat.ltb b a.   (* a >  b *)
Definition ge (a b : float) : bool := PrimFloat.leb b a.   (* a >= b *)
Definition le (a b : float) : bool := PrimFloat.leb a b.   (* a <= b *)

(** ToBoolean on a number: [+0], [-0] and [NaN] are falsy. *)
Definition num_truthy (x : float) : bool :=
  negb (PrimFloat.eqb x 0 || PrimFloat.is_nan x).

(** [a || b] where [a] is a number that may be [undefined] ([None]). *)
Definition num_or (a : option float) (b : float) : float :=
  match a with
  | Some x => if num_truthy x then x else b
  | None => b
  end.

(** *** Strings *)

Definition colon : ascii := ":"%char.

(** [s.split(sep)] for a one-character separator. *)
Fixpoint split (sep : ascii) (s : string) : list string :=
  match s with
  | EmptyString => [EmptyString]
  | String c rest =>
      if Ascii.eqb c sep then EmptyString :: split sep rest
      else match split sep rest with
           | part :: parts => String c part :: parts
           | [] => [String c EmptyString]
           end
  end.

(** [parts.join(sep)], the inverse of [split]. *)
Fixpoint join (sep : ascii) (parts : list string) : string :=
  match parts with
  | [] => EmptyString
  | [p] => p
  | p :: rest => p +:+ String sep (join sep rest)
  end.

Fixpoint count_char (c : ascii) (s : string) : nat :=
  match s with
  | EmptyString => 0
  | String d rest => (if Ascii.eqb d c then 1 else 0) + count_char c rest
  end.

(** [s.includes(sub)] *)
Fixpoint includes (s sub : string) : bool :=
  String.prefix sub s ||
  match s with
  | EmptyString => false
  | String _ rest => includes rest sub
  end.

(** [s.substring(0, n)] *)
Definition substring0 (n : nat) (s : string) : string :=
  String.substring 0 n s.

(** [s.slice(-n)]: the last [n] characters, the whole string when it is
    shorter. *)
Definition slice_last (n : nat) (s : string) : string :=
  String.substring (String.length s - n) n s.

(** *** The regular expression [/\[[\s\S]*\]/]

    The match starts at the first opening bracket and, the star being
    greedy, ends at the last closing bracket after it. *)

Fixpoint from_first (c : ascii) (s : string) : option string :=
  match s with
  | EmptyString => None
  | String d rest => if Ascii.eqb d c then Some s else from_first c rest
  end.

Fixpoint upto_last (c : ascii) (s : string) : option string :=
  match s with
  | EmptyString => None
  | String d rest =>
      match upto_last c rest with
      | Some kept => Some (String d kept)
      | None => if Ascii.eqb d c then Some (String d EmptyString) else None
      end
  end.

Definition match_json_array (text : string) : option string :=
  match from_first "["%char text with
  | Some (String open rest) =>
      match upto_last "]"%char rest with
      | Some kept => Some (String open kept)
      | None => None
      end
  | _ => None
  end.

(** *** Parsed JSON and property access *)

Inductive Value :=
| Undefined
| Null
| Bool (b : bool)
| Num (x : float)
| Str (s : string)
| Arr (items : list Value)
| Obj (fields : list (string * Value)).

Definition truthy (v : Value) : bool :=
  match v with
  | Undefined | Null => false
  | Bool b => b
  | Num x => num_truthy x
  | Str s => negb (String.eqb s "")
  | Arr _ | Obj _ => true
  end.

Fixpoint assoc (k : string) (fields : list (string * Value)) : Value :=
  match fields with
  | [] => Undefined
  | (k', v) :: rest => if String.eqb k k' then v else assoc k rest
  end.

(** [v.k] for a property name [k] that no prototype defines: reading a
    property of [null] or [undefined] throws, a primitive or an array has
    no such property. *)
Definition get (v : Value) (k : string) : Result Value :=
  match v with
  | Undefined | Null =>
      Throw (TypeError ("Cannot read properties of null or undefined: " +:+ k))
  | Obj fields => Ok (assoc k fields)
  | _ => Ok Undefined
  end.

(** [v[0]] *)
Definition get0 (v : Value) : Result Value :=
  match v with
  | Undefined | Null =>
      Throw (TypeError "Cannot read properties of null or undefined: 0")
  | Arr items => Ok (default Undefined (head items))
  | Str (String c _) => Ok (Str (String c EmptyString))
  | Obj fields => Ok (assoc "0" fields)
  | _ => Ok Undefined
  end.

(** *** Inherited members

    The names [Object.prototype] defines: on an object literal with none
    of them among its own keys, [o[name]] is for each the inherited member
    (a function, or the prototype itself for [__proto__]), which is truthy
    and has no property of the literal's values. *)
Definition inherited_names : list string :=
  ["constructor"; "__proto__"; "__defineGetter__"; "__defineSetter__";
   "__lookupGetter__"; "__lookupSetter__"; "hasOwnProperty";
   "isPrototypeOf"; "propertyIsEnumerable"; "toLocaleString"; "toString";
   "valueOf"].

Definition inherited (name : string) : bool :=
  existsb (String.eqb name) inherited_names.

End Js.

Notation "x <- r ;; k" := (Js.bind r (fun x => k))
  (at level 100, r at next level, right associativity).

(* ===================================================================== *)
(** ** The insertion-ordered [Map] of JavaScript *)
(* ===================================================================== *)

Module JsMap.
Section Ops.
Context {V : Type}.

Definition t := list (string * V).

Definition empty : t := [].

Fixpoint get (k : string) (m : t) : option V :=
  match m with
  | [] => None
  | (k', v) :: rest => if String.eqb k k' then Some v else get k rest
  end.

(** [m.set(k, v)]: an existing key keeps its place in the iteration
    order, a new key goes last. *)
Fixpoint set (k : string) (v : V) (m : t) : t :=
  match m with
  | [] => [(k, v)]
  | (k', v') :: rest =>
      if String.eqb k k' then (k, v) :: rest else (k', v') :: set k v rest
  end.

(** [m.delete(k)] *)
Fixpoint delete (k : string) (m : t) : t :=
  match m with
  | [] => []
  | (k', v') :: rest =>
      if String.eqb k k' then delete k rest else (k', v') :: delete k rest
  end.

(** [Array.from(m.values())] *)
Definition values (m : t) : list V := map snd m.

Definition keys (m : t) : list string := map fst m.
End Ops.
Arguments t : clear implicits.
End JsMap.

(* ===================================================================== *)
(** ** Data model *)
(* ===================================================================== *)

(** Risk parameters of a profile. *)
Record RiskParams := {
  maxPositionSize : float;
  volatilityThreshold : float;
  stopLoss : float;
  takeProfit : float
}.

(** One interval sample of [getTradeMetrics]. The [Price] object, its
    [Average] and [Ohlc] objects and the two fields of [Average] may each
    be missing ([None] for [undefined] or [null]); the response parser and
    the liquidation sweep read them through [?.] and [||],
    [fallbackDecision] reads [Price.Ohlc.Close] without a guard. A [null]
    sample behaves in every function below like a sample without
    [Price]. The four fields of an [Ohlc] object are numbers; one that is
    missing behaves as NaN in the comparisons and in [||]. *)
Module Metric.
Record OhlcT := { Open : float; High : float; Low : float; Close : float }.
Record AverageT := {
  Estimate : option float;
  WeightedSimpleMoving : option float
}.
Record PriceT := { Average : option AverageT; Ohlc : option OhlcT }.
Record t := { Price : option PriceT }.

(** [latestMetric?.Price?.Average?.Estimate] *)
Definition estimate_of (latest : option t) : option float :=
  m ← latest; p ← Price m; a ← Average p; Estimate a.

(** [latestMetric?.Price?.Ohlc?.Close] *)
Definition close_of (latest : option t) : option float :=
  m ← latest; p ← Price m; o ← Ohlc p; Some (Close o).
End Metric.

(** An element of [currenciesWithMetrics]. *)
Module Currency.
Record t := {
  currencyId : string;
  volatilityData : Js.Value;
  tradeMetrics : list Metric.t
}.
End Currency.

(** The three values the engine gives to [decision]. *)
Inductive Action := open | close | hold.

Module Decision.
Record t := {
  currencyId : string;
  decision : Action;
  positionType : string;
  confidence : float;
  reasoning : Js.Value;
  entryPrice : float
}.
End Decision.

Module Position.
Record t := {
  id : string;
  currencyId : string;
  tokenAddress : string;
  network : string;
  type : string;
  entryPrice : float;
  size : float;
  timestamp : Z;
  stopLoss : float;
  takeProfit : float;
  confidence : float;
  reasoning : Js.Value;
  expectedProfit : float
}.
End Position.

(** [{ ...position, currentPrice, pnl }] *)
Module Closed.
Record t := {
  position : Position.t;
  currentPrice : float;
  pnl : float
}.
End Closed.

(** The fields of a [TradingEngine] instance. *)
Module Engine.
Record t := {
  riskProfile : string;
  geminiApiKey : option string;
  positions : JsMap.t Position.t;
  capital : float;
  allocatedCapital : float;
  riskParams : RiskParams
}.
End Engine.

(* ===================================================================== *)
(** ** Risk profile table and identifier parser *)
(* ===================================================================== *)

Definition profile_low : RiskParams :=
  {| maxPositionSize := 0.1; volatilityThreshold := 0.02;
     stopLoss := 0.95; takeProfit := 1.05 |}.

Definition profile_high : RiskParams :=
  {| maxPositionSize := 0.3; volatilityThreshold := 0.05;
     stopLoss := 0.90; takeProfit := 1.15 |}.

(** What [this.riskParams] reads as when [profiles[profile]] is a member
    inherited from [Object.prototype]: it has none of the four fields, so
    each read is [undefined], which the arithmetic of [openPosition] takes
    as NaN. *)
Definition profile_inherited : RiskParams :=
  {| maxPositionSize := nan; volatilityThreshold := nan;
     stopLoss := nan; takeProfit := nan |}.

(** [profiles[profile] || profiles.low]: the table's own entry for ["low"]
    and ["high"], the truthy inherited member for a name of
    [Object.prototype], and the low profile for every other tag, for which
    the lookup is [undefined]. *)
Definition getRiskParameters (profile : string) : RiskParams :=
  if String.eqb profile "low" then profile_low
  else if String.eqb profile "high" then profile_high
  else if Js.inherited profile then profile_inherited
  else profile_low.

(** [new TradingEngine(riskProfile, geminiApiKey)] *)
Definition new_engine (riskProfile : string) (geminiApiKey : option string)
  : Engine.t :=
  {| Engine.riskProfile := riskProfile;
     Engine.geminiApiKey := geminiApiKey;
     Engine.positions := JsMap.empty;
     Engine.capital := 100000;
     Engine.allocatedCapital := 0;
     Engine.riskParams := getRiskParameters riskProfile |}.

Definition parseCurrencyId (currencyId : string) : string * string :=
  let parts := Js.split Js.colon currencyId in
  match parts with
  | [_; network; address] => (network, address)
  | [_; address] => ("ethereum", address)
  | _ => ("unknown", currencyId)
  end.

(* ===================================================================== *)
(** ** Fallback heuristic *)
(* ===================================================================== *)

Definition fallback_reasoning (isPriceAboveSMA isBullish : bool) : string :=
  "Fallback: Price " +:+ (if isPriceAboveSMA then "above" else "below")
  +:+ " SMA with " +:+ (if isBullish then "bullish" else "bearish")
  +:+ " candle".

(** The [TypeError] of reading [ohlc.Close] when [Price.Ohlc] is
    [undefined] or [null]. *)
Definition missing_ohlc : Js.Error :=
  Js.TypeError "Cannot read properties of null or undefined: Close".

(** [fallbackDecision(currencyId, volatilityData, tradeMetrics)]. With a
    [Price] that has no [Ohlc], [ohlc.Close] is read at the latest in the
    comparison [ohlc.Close > sma], whatever [Average] holds, and throws. *)
Definition fallbackDecision (currencyId : string) (volatilityData : Js.Value)
    (tradeMetrics : list Metric.t) : Js.Result Decision.t :=
  match last tradeMetrics with
  | None =>
      Js.Ok {| Decision.currencyId := currencyId;
               Decision.decision := hold;
               Decision.positionType := "long";
               Decision.confidence := 0.5;
               Decision.reasoning := Js.Str "No trade metrics available";
               Decision.entryPrice := 0 |}
  | Some latestMetric =>
      match Metric.Price latestMetric with
      | None =>
          Js.Ok {| Decision.currencyId := currencyId;
                   Decision.decision := hold;
                   Decision.positionType := "long";
                   Decision.confidence := 0.5;
                   Decision.reasoning := Js.Str "Insufficient market data";
                   Decision.entryPrice := 0 |}
      | Some price =>
          match Metric.Ohlc price with
          | None => Js.Throw missing_ohlc
          | Some ohlc =>
              let estimate :=
                Js.num_or (a ← Metric.Average price; Metric.Estimate a)
                          (Metric.Close ohlc) in
              let sma :=
                Js.num_or
                  (a ← Metric.Average price; Metric.WeightedSimpleMoving a)
                  estimate in
              let isPriceAboveSMA := Js.gt (Metric.Close ohlc) sma in
              let isBullish := Js.gt (Metric.Close ohlc) (Metric.Open ohlc) in
              let '(action, type) :=
                if isPriceAboveSMA && isBullish then (open, "long")
                else if negb isPriceAboveSMA && negb isBullish
                then (open, "short")
                else (hold, "long") in
              Js.Ok {| Decision.currencyId := currencyId;
                       Decision.decision := action;
                       Decision.positionType := type;
                       Decision.confidence := 0.6;
                       Decision.reasoning :=
                         Js.Str (fallback_reasoning isPriceAboveSMA isBullish);
                       Decision.entryPrice := estimate |}
          end
      end
  end.

(** The fallback call on one record of the batch. *)
Definition fallback_of (c : Currency.t) : Js.Result Decision.t :=
  fallbackDecision (Currency.currencyId c) (Currency.volatilityData c)
    (Currency.tradeMetrics c).

(** [currenciesWithMetrics.map(c => this.fallbackDecision(...))] *)
Definition fallback_all (currenciesWithMetrics : list Currency.t)
  : Js.Result (list Decision.t) :=
  Js.map_throwing fallback_of currenciesWithMetrics.

(* ===================================================================== *)
(** ** Batch decision resolver *)
(* ===================================================================== *)

(** What [fetch] resolves to: the [ok] flag and the two body readers, each
    of which may reject. *)
Module Response.
Record t := {
  ok : bool;
  status : Z;
  text : Js.Result string;
  json : Js.Result Js.Value
}.
End Response.

Section Resolver.

(** [JSON.parse]: [None] is a thrown [SyntaxError]. *)
Variable JSON_parse : string -> option Js.Value.

(** [String.prototype.toUpperCase] and [String.prototype.toLowerCase]. *)
Variable toUpperCase toLowerCase : string -> string.

(** [buildMultiCurrencyPrompt] formats the batch into the request text
    (it throws when a record has no usable [volatilityData]); its text
    reaches the reasoning service only. *)
Variable buildMultiCurrencyPrompt :
  string -> list Currency.t -> Js.Result string.

(** [fetch(apiUrl, { body: prompt })]: the reasoning service, which
    rejects on a transport error. *)
Variable fetch : string -> string -> Js.Result Response.t.

Definition parse_json (text : string) : Js.Result Js.Value :=
  match JSON_parse text with
  | Some v => Js.Ok v
  | None => Js.Throw (Js.SyntaxError "Unexpected token")
  end.

(** The [decisionMap]. A key that is not a string is never the key of a
    later [get(currencyId)], whose argument is a string; such an entry
    is left out. *)
Fixpoint build_decision_map (items : list Js.Value)
    (decisionMap : gmap string Js.Value)
  : Js.Result (gmap string Js.Value) :=
  match items with
  | [] => Js.Ok decisionMap
  | item :: rest =>
      cid <- Js.get item "currencyId" ;;
      build_decision_map rest
        (if Js.truthy cid then
           match cid with
           | Js.Str s => <[s := item]> decisionMap
           | _ => decisionMap
           end
         else decisionMap)
  end.

(** [item.action?.toUpperCase() || 'HOLD'] *)
Definition action_text (item : Js.Value) : Js.Result string :=
  a <- Js.get item "action" ;;
  match a with
  | Js.Undefined | Js.Null => Js.Ok "HOLD"
  | Js.Str s =>
      let u := toUpperCase s in
      Js.Ok (if String.eqb u "" then "HOLD" else u)
  | _ => Js.Throw (Js.TypeError "item.action?.toUpperCase is not a function")
  end.

Definition decision_of_action (action : string) : Action :=
  if Js.includes action "OPEN" then open
  else if Js.includes action "CLOSE" then close
  else hold.

Definition type_of_item (item : Js.Value) (action : string)
  : Js.Result string :=
  pt <- Js.get item "positionType" ;;
  if Js.truthy pt then
    match pt with
    | Js.Str s => Js.Ok (toLowerCase s)
    | _ =>
        Js.Throw (Js.TypeError "item.positionType.toLowerCase is not a function")
    end
  else if Js.includes action "SHORT" then Js.Ok "short"
  else if Js.includes action "LONG" then Js.Ok "long"
  else Js.Ok "long".

(** [Estimate || Close || 0] on the latest sample *)
Definition parsed_entry_price (tradeMetrics : list Metric.t) : float :=
  let latestMetric := last tradeMetrics in
  Js.num_or (Metric.estimate_of latestMetric)
    (Js.num_or (Metric.close_of latestMetric) 0).

(** The body of the [forEach] over the input records. *)
Definition match_decision (decisionMap : gmap string Js.Value)
    (c : Currency.t) : Js.Result Decision.t :=
  match decisionMap !! Currency.currencyId c with
  | Some item =>
      if Js.truthy item then
        action <- action_text item ;;
        type <- type_of_item item action ;;
        r <- Js.get item "reasoning" ;;
        Js.Ok {| Decision.currencyId := Currency.currencyId c;
                 Decision.decision := decision_of_action action;
                 Decision.positionType := type;
                 Decision.confidence := 0.7;
                 Decision.reasoning :=
                   if Js.truthy r then r
                   else Js.Str "Market analysis completed";
                 Decision.entryPrice :=
                   parsed_entry_price (Currency.tradeMetrics c) |}
      else fallback_of c
  | None => fallback_of c
  end.

Fixpoint match_decisions (decisionMap : gmap string Js.Value)
    (cs : list Currency.t) : Js.Result (list Decision.t) :=
  match cs with
  | [] => Js.Ok []
  | c :: rest =>
      d <- match_decision decisionMap c ;;
      ds <- match_decisions decisionMap rest ;;
      Js.Ok (d :: ds)
  end.

(** The [try] block of [parseMultiCurrencyResponse]. *)
Definition parse_response_body (gptText : Js.Value)
    (currenciesWithMetrics : list Currency.t)
  : Js.Result (list Decision.t) :=
  match gptText with
  | Js.Str text =>
      match Js.match_json_array text with
      | Some jsonMatch =>
          jsonData <- parse_json jsonMatch ;;
          match jsonData with
          | Js.Arr items =>
              decisionMap <- build_decision_map items ∅ ;;
              match_decisions decisionMap currenciesWithMetrics
          | _ => Js.Throw (Js.TypeError "jsonData.forEach is not a function")
          end
      | None => Js.Throw (Js.PlainError "No JSON array found in response")
      end
  | _ => Js.Throw (Js.TypeError "gptText.match is not a function")
  end.

Definition parseMultiCurrencyResponse (gptText : Js.Value)
    (currenciesWithMetrics : list Currency.t)
  : Js.Result (list Decision.t) :=
  Js.try_catch (parse_response_body gptText currenciesWithMetrics)
    (fun _ => fallback_all currenciesWithMetrics).

(** [data.candidates[0].content.parts[0]] when every step of the chain is
    truthy, as the structure check requires. *)
Definition first_part (data : Js.Value) : Js.Result (option Js.Value) :=
  candidates <- Js.get data "candidates" ;;
  if negb (Js.truthy candidates) then Js.Ok None else
  candidate <- Js.get0 candidates ;;
  if negb (Js.truthy candidate) then Js.Ok None else
  content <- Js.get candidate "content" ;;
  if negb (Js.truthy content) then Js.Ok None else
  parts <- Js.get content "parts" ;;
  if negb (Js.truthy parts) then Js.Ok None else
  part <- Js.get0 parts ;;
  if negb (Js.truthy part) then Js.Ok None else
  Js.Ok (Some part).

Definition key_present (key : option string) : bool :=
  match key with
  | Some k => negb (String.eqb k "")
  | None => false
  end.

Definition api_url (key : option string) : string :=
  "https://generativelanguage.googleapis.com/v1beta/models/gemini-2.0-flash-001:generateContent?key="
  +:+ default "" key.

(** The [try] block of [analyzeMultipleWithAI]; an exception of a
    fallback call inside it reaches the [catch] like any other. *)
Definition analyze_body (e : Engine.t)
    (currenciesWithMetrics : list Currency.t)
  : Js.Result (list Decision.t) :=
  prompt <- buildMultiCurrencyPrompt (Engine.riskProfile e)
              currenciesWithMetrics ;;
  response <- fetch (api_url (Engine.geminiApiKey e)) prompt ;;
  if negb (Response.ok response) then
    errorText <- Response.text response ;;
    fallback_all currenciesWithMetrics
  else
    data <- Response.json response ;;
    err <- Js.get data "error" ;;
    if Js.truthy err then fallback_all currenciesWithMetrics
    else
      part <- first_part data ;;
      match part with
      | None => fallback_all currenciesWithMetrics
      | Some part0 =>
          responseText <- Js.get part0 "text" ;;
          parseMultiCurrencyResponse responseText currenciesWithMetrics
      end.

Definition analyzeMultipleWithAI (e : Engine.t)
    (currenciesWithMetrics : list Currency.t)
  : Js.Result (list Decision.t) :=
  if negb (key_present (Engine.geminiApiKey e)) then
    fallback_all currenciesWithMetrics
  else
    Js.try_catch (analyze_body e currenciesWithMetrics)
      (fun _ => fallback_all currenciesWithMetrics).

End Resolver.

(* ===================================================================== *)
(** ** Position ledger *)
(* ===================================================================== *)

Module Summary.
Record t := {
  closedCount : nat;
  totalPnL : float;
  positions : list Closed.t
}.
End Summary.

(** The object [executeDecision] returns; its [currencyId] field holds the
    display name. *)
Module Executed.
Record t := {
  message : string;
  decision : Action;
  currencyId : string
}.
End Executed.

Definition with_ledger (e : Engine.t) (positions : JsMap.t Position.t)
    (allocatedCapital : float) : Engine.t :=
  {| Engine.riskProfile := Engine.riskProfile e;
     Engine.geminiApiKey := Engine.geminiApiKey e;
     Engine.positions := positions;
     Engine.capital := Engine.capital e;
     Engine.allocatedCapital := allocatedCapital;
     Engine.riskParams := Engine.riskParams e |}.

Definition calculateExpectedProfit
    (positionSize entryPrice takeProfitMultiplier : float) : float :=
  (positionSize * (takeProfitMultiplier - 1))%float.

(** [openPosition(aiDecision)] at clock reading [now] ([Date.now()]).
    The result is the returned position ([None] for [null]) and the engine
    after the call. *)
Definition openPosition (e : Engine.t) (now : Z) (aiDecision : Decision.t)
  : option Position.t * Engine.t :=
  if Js.ge (Engine.allocatedCapital e) (Engine.capital e * 0.9)%float then
    (None, e)
  else
    let positionSize :=
      (Engine.capital e * maxPositionSize (Engine.riskParams e))%float in
    let '(network, address) :=
      parseCurrencyId (Decision.currencyId aiDecision) in
    let position :=
      {| Position.id := "pos_" +:+ pretty now;
         Position.currencyId := Decision.currencyId aiDecision;
         Position.tokenAddress := address;
         Position.network := network;
         Position.type := Decision.positionType aiDecision;
         Position.entryPrice := Decision.entryPrice aiDecision;
         Position.size := positionSize;
         Position.timestamp := now;
         Position.stopLoss := stopLoss (Engine.riskParams e);
         Position.takeProfit := takeProfit (Engine.riskParams e);
         Position.confidence := Decision.confidence aiDecision;
         Position.reasoning := Decision.reasoning aiDecision;
         Position.expectedProfit :=
           calculateExpectedProfit positionSize
             (Decision.entryPrice aiDecision)
             (takeProfit (Engine.riskParams e)) |} in
    (Some position,
     with_ledger e (JsMap.set address position (Engine.positions e))
       (Engine.allocatedCapital e + positionSize)%float).

Definition realized_pnl (position : Position.t) (currentPrice : float)
  : float :=
  if String.eqb (Position.type position) "long" then
    ((currentPrice - Position.entryPrice position)
     / Position.entryPrice position * Position.size position)%float
  else
    ((Position.entryPrice position - currentPrice)
     / Position.entryPrice position * Position.size position)%float.

(** [closePosition(position, currentPrice)] *)
Definition closePosition (e : Engine.t) (position : Position.t)
    (currentPrice : float) : Closed.t * Engine.t :=
  let pnl := realized_pnl position currentPrice in
  ({| Closed.position := position;
      Closed.currentPrice := currentPrice;
      Closed.pnl := pnl |},
   with_ledger e
     (JsMap.delete (Position.tokenAddress position) (Engine.positions e))
     (Engine.allocatedCapital e - Position.size position)%float).

Definition getOpenPositions (e : Engine.t) : list Position.t :=
  JsMap.values (Engine.positions e).

(** [bitqueryClient.getTradeMetrics(currencyId, hoursAgo)]: it throws, or
    returns a value that is an array of samples ([Some]) or is not an
    array ([None]). *)
Definition PriceClient := string -> Z -> Js.Result (option (list Metric.t)).

(** The closing price [closeAllPositions] settles on for one position. *)
Definition liquidation_price (bitqueryClient : option PriceClient)
    (position : Position.t) : float :=
  match bitqueryClient with
  | None => Position.entryPrice position
  | Some client =>
      match client (Position.currencyId position) 1%Z with
      | Js.Ok (Some (m :: ms)) =>
          let latestMetric := last (m :: ms) in
          Js.num_or (Metric.estimate_of latestMetric)
            (Js.num_or (Metric.close_of latestMetric)
               (Position.entryPrice position))
      | Js.Ok _ => Position.entryPrice position
      | Js.Throw _ => Position.entryPrice position
      end
  end.

(** The [for ... of positions] loop of [closeAllPositions]. *)
Fixpoint close_each (bitqueryClient : option PriceClient)
    (snapshot : list Position.t) (e : Engine.t)
    (closedPositions : list Closed.t) (totalPnL : float)
  : Summary.t * Engine.t :=
  match snapshot with
  | [] =>
      ({| Summary.closedCount := length closedPositions;
          Summary.totalPnL := totalPnL;
          Summary.positions := closedPositions |}, e)
  | position :: rest =>
      let currentPrice := liquidation_price bitqueryClient position in
      let '(closedPosition, e') := closePosition e position currentPrice in
      close_each bitqueryClient rest e'
        (closedPositions ++ [closedPosition])
        (totalPnL + Closed.pnl closedPosition)%float
  end.

Definition closeAllPositions (e : Engine.t)
    (bitqueryClient : option PriceClient) : Summary.t * Engine.t :=
  let positions := getOpenPositions e in
  match positions with
  | [] =>
      ({| Summary.closedCount := 0;
          Summary.totalPnL := 0;
          Summary.positions := [] |}, e)
  | _ => close_each bitqueryClient positions e [] 0%float
  end.

Section Execute.

(** [x.toFixed(digits)] *)
Variable toFixed : float -> nat -> string.

Definition display_name (currencyId : string) : string :=
  let '(network, address) := parseCurrencyId currencyId in
  let shortAddress :=
    Js.substring0 10 address +:+ "..." +:+ Js.slice_last 6 address in
  network +:+ "/" +:+ shortAddress.

Definition newline : string := String (ascii_of_nat 10) EmptyString.

Definition opening_message (positionType displayName : string)
    (position : Position.t) : string :=
  newline +:+ "üìà Opening " +:+ positionType +:+ " position for "
  +:+ displayName +:+ " with expected profit of $"
  +:+ toFixed (Position.expectedProfit position) 2.

Definition closing_message (positionType displayName : string)
    (closedPosition : Closed.t) : string :=
  let profitOrLoss :=
    if Js.ge (Closed.pnl closedPosition) 0 then "profit" else "loss" in
  let amount := toFixed (PrimFloat.abs (Closed.pnl closedPosition)) 2 in
  newline +:+ "üìâ Closing " +:+ positionType +:+ " position for "
  +:+ displayName +:+ " for " +:+ profitOrLoss +:+ " of $" +:+ amount.

Definition holding_message (displayName : string) : string :=
  newline +:+ "‚è∏Ô∏è  Holding position for " +:+ displayName.

(** [executeDecision(aiDecision, tradingParams)] at clock reading [now]. *)
Definition executeDecision (e : Engine.t) (now : Z)
    (aiDecision : Decision.t) : Executed.t * Engine.t :=
  let currencyId := Decision.currencyId aiDecision in
  let positionType := Decision.positionType aiDecision in
  let '(network, address) := parseCurrencyId currencyId in
  let displayName := display_name currencyId in
  let '(message, e') :=
    match Decision.decision aiDecision with
    | open =>
        match openPosition e now aiDecision with
        | (Some position, e1) =>
            (opening_message positionType displayName position, e1)
        | (None, e1) => ("", e1)
        end
    | close =>
        match JsMap.get address (Engine.positions e) with
        | Some position =>
            let '(closedPosition, e1) :=
              closePosition e position (Decision.entryPrice aiDecision) in
            (closing_message positionType displayName closedPosition, e1)
        | None => ("", e)
        end
    | hold => (holding_message displayName, e)
    end in
  ({| Executed.message := message;
      Executed.decision := Decision.decision aiDecision;
      Executed.currencyId := displayName |}, e').

End Execute.

(* ===================================================================== *)
(** ** Stages of the request to the reasoning service *)
(* ===================================================================== *)

Section Stages.

Variable JSON_parse : string -> option Js.Value.
Variable buildMultiCurrencyPrompt :
  string -> list Currency.t -> Js.Result string.
Variable fetch : string -> string -> Js.Result Response.t.

(** Where [analyzeMultipleWithAI] leaves its happy path, branch by branch
    of the source: the key check, the [catch] for a throwing prompt builder
    or a rejected [fetch], [!response.ok], a rejected [response.json()],
    [data.error], the structure check (to which a [null] body belongs), or
    none of these, with the text handed to [parseMultiCurrencyResponse]. *)
Inductive ServiceOutcome :=
| KeyAbsent
| PromptThrew
| TransportError
| HttpErrorStatus
| BodyNotJson
| ApiError
| MissingStructure
| ResponseText (gptText : Js.Value).

Definition service_outcome (e : Engine.t)
    (currenciesWithMetrics : list Currency.t) : ServiceOutcome :=
  if negb (key_present (Engine.geminiApiKey e)) then KeyAbsent else
  match buildMultiCurrencyPrompt (Engine.riskProfile e)
          currenciesWithMetrics with
  | Js.Throw _ => PromptThrew
  | Js.Ok prompt =>
      match fetch (api_url (Engine.geminiApiKey e)) prompt with
      | Js.Throw _ => TransportError
      | Js.Ok response =>
          if negb (Response.ok response) then HttpErrorStatus else
          match Response.json response with
          | Js.Throw _ => BodyNotJson
          | Js.Ok data =>
              match Js.get data "error" with
              | Js.Throw _ => MissingStructure
              | Js.Ok err =>
                  if Js.truthy err then ApiError else
                  match first_part data with
                  | Js.Ok (Some part0) =>
                      match Js.get part0 "text" with
                      | Js.Ok gptText => ResponseText gptText
                      | Js.Throw _ => MissingStructure
                      end
                  | _ => MissingStructure
                  end
              end
          end
      end
  end.

(** The array of entries a response text parses to; [None] when the text
    is not a string, holds no bracketed array, or does not parse to one. *)
Definition response_items (gptText : Js.Value) : option (list Js.Value) :=
  match gptText with
  | Js.Str text =>
      match Js.match_json_array text with
      | Some jsonMatch =>
          match JSON_parse jsonMatch with
          | Some (Js.Arr items) => Some items
          | _ => None
          end
      | None => None
      end
  | _ => None
  end.

End Stages.

(* ===================================================================== *)
(** ** Ledger traces and the properties under study *)
(* ===================================================================== *)

(** Sum of the sizes of the open positions, in iteration order. *)
Definition sum_sizes (positions : JsMap.t Position.t) : float :=
  foldl (fun acc p => (acc + Position.size p)%float) 0%float
    (JsMap.values positions).

(** Sum of the realized P&L of closed positions, as the liquidation loop
    accumulates it. *)
Definition sum_pnl (closedPositions : list Closed.t) : float :=
  foldl (fun acc c => (acc + Closed.pnl c)%float) 0%float closedPositions.

(** [openPosition] would pass its guard and store its position over one
    already open at the same address. *)
Definition replaces (e : Engine.t) (aiDecision : Decision.t) : bool :=
  negb (Js.ge (Engine.allocatedCapital e) (Engine.capital e * 0.9)%float)
  && bool_decide (is_Some (JsMap.get
                     (parseCurrencyId (Decision.currencyId aiDecision)).2
                     (Engine.positions e))).

(** Engines reached from [new TradingEngine(riskProfile, key)] by calls of
    [openPosition] and by calls of [closePosition] on a position that is
    open (stored under its own address). The flag is [true] as long as no
    call of [openPosition] has replaced an open position. *)
Inductive reachable (riskProfile : string) (key : option string)
  : bool -> Engine.t -> Prop :=
| reach_new : reachable riskProfile key true (new_engine riskProfile key)
| reach_open (clean : bool) (e : Engine.t) (now : Z) (d : Decision.t) :
    reachable riskProfile key clean e ->
    reachable riskProfile key (clean && negb (replaces e d))
      (openPosition e now d).2
| reach_close (clean : bool) (e : Engine.t) (position : Position.t)
    (currentPrice : float) :
    reachable riskProfile key clean e ->
    JsMap.get (Position.tokenAddress position) (Engine.positions e)
      = Some position ->
    reachable riskProfile key clean (closePosition e position currentPrice).2.

(** C1 as the specification states it, at one observation point. *)
Definition capital_invariant_as_stated (e : Engine.t) : Prop :=
  Js.le 0 (Engine.allocatedCapital e) = true
  ∧ Js.le (Engine.allocatedCapital e) (Engine.capital e) = true
  ∧ Engine.allocatedCapital e = sum_sizes (Engine.positions e).

(** Every stored position is keyed by its own [tokenAddress], as
    [openPosition] stores it. *)
Definition keyed_by_address (positions : JsMap.t Position.t) : Prop :=
  Forall (fun kp => Position.tokenAddress kp.2 = kp.1) positions.

(** The specification's reading of the moving average the heuristic
    compares with: the weighted moving average when the sample carries
    one, else the estimated price when it carries one, else [close]. *)
Definition spec_sma (average : option Metric.AverageT) (closeP : float)
  : float :=
  match a ← average; Metric.WeightedSimpleMoving a with
  | Some weighted => weighted
  | None =>
      match a ← average; Metric.Estimate a with
      | Some estimate => estimate
      | None => closeP
      end
  end.

(** C5 as the specification states it, for one metric record (it speaks
    of records whose latest sample carries its OHLC). *)
Definition fallback_as_stated (c : Currency.t) : Prop :=
  match last (Currency.tradeMetrics c) with
  | None =>
      ∃ d, fallback_of c = Js.Ok d
           ∧ Decision.decision d = hold ∧ Decision.confidence d = 0.5%float
  | Some latestMetric =>
      match Metric.Price latestMetric with
      | None => True
      | Some price =>
          match Metric.Ohlc price with
          | None => True
          | Some ohlc =>
              let closeP := Metric.Close ohlc in
              let openP := Metric.Open ohlc in
              let sma := spec_sma (Metric.Average price) closeP in
              ∃ d, fallback_of c = Js.Ok d
                ∧ Decision.confidence d = 0.6%float
                ∧ (if Js.gt closeP sma && Js.gt closeP openP then
                     Decision.decision d = open
                     ∧ Decision.positionType d = "long"
                   else if Js.le closeP sma && Js.le closeP openP then
                     Decision.decision d = open
                     ∧ Decision.positionType d = "short"
                   else Decision.decision d = hold)
          end
      end
  end.

(** C9 as the specification states it, for one call of [openPosition]. *)
Definition entry_positive_as_stated (e : Engine.t) (now : Z)
    (aiDecision : Decision.t) : Prop :=
  ∀ position e', openPosition e now aiDecision = (Some position, e') →
    Js.gt (Position.entryPrice position) 0 = true.

(** Decision [d] answers record [c]. *)
Definition answers (c : Currency.t) (d : Decision.t) : Prop :=
  Decision.currencyId d = Currency.currencyId c.

(** The latest sample of the record, when it has a [Price], has the
    [Ohlc] object [fallbackDecision] reads. *)
Definition carries_ohlc (c : Currency.t) : bool :=
  match last (Currency.tradeMetrics c) with
  | Some latestMetric =>
      match Metric.Price latestMetric with
      | Some price => bool_decide (is_Some (Metric.Ohlc price))
      | None => true
      end
  | None => true
  end.

(** The closed record the sweep produces for one position. *)
Definition liquidated (bitqueryClient : option PriceClient)
    (position : Position.t) : Closed.t :=
  (closePosition (new_engine "low" None) position
     (liquidation_price bitqueryClient position)).1.

(** [n] additions of [s] to zero, as [n] accepted opens accumulate them. *)
Fixpoint units (n : nat) (s : float) : float :=
  match n with
  | 0 => 0%float
  | S n' => (units n' s + s)%float
  end.

(** The size [openPosition] gives a position on a capital of 100000. *)
Definition position_size (params : RiskParams) : float :=
  (100000 * maxPositionSize params)%float.

(** The ledger after [n] more accepted opens than closes, for the risk
    parameters [params] and [slots] opens that the guard lets through. *)
Definition ledger_inv (params : RiskParams) (slots : nat) (clean : bool)
    (e : Engine.t) : Prop :=
  ∃ n,
    Engine.capital e = 100000%float
    ∧ Engine.riskParams e = params
    ∧ Engine.allocatedCapital e = units n (position_size params)
    ∧ n ≤ slots
    ∧ length (Engine.positions e) ≤ n
    ∧ (clean = true → length (Engine.positions e) = n)
    ∧ NoDup (JsMap.keys (Engine.positions e))
    ∧ keyed_by_address (Engine.positions e)
    ∧ Forall (fun kp => Position.size kp.2 = position_size params)
        (Engine.positions e).

(* ===================================================================== *)
(** ** Sample inputs *)
(* ===================================================================== *)

Module Sample.

Definition toFixed (x : float) (digits : nat) : string := "0.00".

(** The case mappings on ASCII text, where they move the letters of the
    English alphabet and nothing else. *)
Definition upper_char (c : ascii) : ascii :=
  let n := nat_of_ascii c in
  if (97 <=? n)%nat && (n <=? 122)%nat then ascii_of_nat (n - 32) else c.

Definition lower_char (c : ascii) : ascii :=
  let n := nat_of_ascii c in
  if (65 <=? n)%nat && (n <=? 90)%nat then ascii_of_nat (n + 32) else c.

Fixpoint map_chars (f : ascii -> ascii) (s : string) : string :=
  match s with
  | EmptyString => EmptyString
  | String c rest => String (f c) (map_chars f rest)
  end.

Definition toUpperCase : string -> string := map_chars upper_char.
Definition toLowerCase : string -> string := map_chars lower_char.

Definition flat (openP closeP : float) (average : option Metric.AverageT)
  : Metric.t :=
  {| Metric.Price :=
       Some {| Metric.Average := average;
               Metric.Ohlc :=
                 Some {| Metric.Open := openP; Metric.High := closeP;
                         Metric.Low := openP; Metric.Close := closeP |} |} |}.

(** A sample whose [Price] has an estimate and no [Ohlc] object. *)
Definition no_ohlc : Metric.t :=
  {| Metric.Price :=
       Some {| Metric.Average :=
                 Some {| Metric.Estimate := Some 1%float;
                         Metric.WeightedSimpleMoving := None |};
               Metric.Ohlc := None |} |}.

Definition decide_on (currencyId : string) (action : Action)
    (positionType : string) (entryPrice : float) : Decision.t :=
  {| Decision.currencyId := currencyId;
     Decision.decision := action;
     Decision.positionType := positionType;
     Decision.confidence := 0.7;
     Decision.reasoning := Js.Str "Market analysis completed";
     Decision.entryPrice := entryPrice |}.

Definition long_position (size entryPrice : float) : Position.t :=
  {| Position.id := "pos_1";
     Position.currencyId := "bid:solana:ADDR123";
     Position.tokenAddress := "ADDR123";
     Position.network := "solana";
     Position.type := "long";
     Position.entryPrice := entryPrice;
     Position.size := size;
     Position.timestamp := 1;
     Position.stopLoss := 0.90;
     Position.takeProfit := 1.15;
     Position.confidence := 0.7;
     Position.reasoning := Js.Str "Strong bullish trend";
     Position.expectedProfit := 4500 |}.

(** A high-risk engine after three accepted opens at three addresses. *)
Definition full_engine : Engine.t :=
  let e0 := new_engine "high" None in
  let e1 := (openPosition e0 1 (decide_on "bid:solana:AAA" open "long" 2)).2 in
  let e2 := (openPosition e1 2 (decide_on "bid:solana:BBB" open "short" 3)).2 in
  (openPosition e2 3 (decide_on "bid:solana:CCC" open "long" 5)).2.


(** A stand-in for [JSON.parse] on a response whose bracketed text denotes
    the array [items]. *)
Definition parse_as (items : list Js.Value) (text : string)
  : option Js.Value := Some (Js.Arr items).

Definition entry (currencyId action : string) : Js.Value :=
  Js.Obj [("currencyId", Js.Str currencyId); ("action", Js.Str action);
          ("positionType", Js.Null);
          ("reasoning", Js.Str "Strong bullish trend")].

Definition record (currencyId : string) (tradeMetrics : list Metric.t)
  : Currency.t :=
  {| Currency.currencyId := currencyId;
     Currency.volatilityData := Js.Num 12.5;
     Currency.tradeMetrics := tradeMetrics |}.

(** A sample whose weighted moving average is reported as zero. *)
Definition zero_average : Metric.t :=
  flat 3 5 (Some {| Metric.Estimate := None;
                    Metric.WeightedSimpleMoving := Some 0%float |}).

(** A high-risk engine after two opens of the same identifier. *)
Definition reopened_engine : Engine.t :=
  let e0 := new_engine "high" None in
  let e1 := (openPosition e0 1 (decide_on "bid:solana:AAA" open "long" 2)).2 in
  (openPosition e1 2 (decide_on "bid:solana:AAA" open "long" 2)).2.

(** A price client whose every lookup fails. *)
Definition failing_client : PriceClient :=
  fun _ _ => Js.Throw (Js.PlainError "HTTP Error 500").

End Sample.

(* ===================================================================== *)
(** ** Callers of the engine (index.js) *)
(* ===================================================================== *)

(** A row of [getCurrencyVolatilityData]: the identifier under
    [Currency.Id] and the row's other properties ([volatility],
    [average], ...). *)
Module Row.
Record t := {
  Id : string;
  fields : list (string * Js.Value)
}.

(** The row as the object it is. *)
Definition value (row : t) : Js.Value :=
  Js.Obj (("Currency", Js.Obj [("Id", Js.Str (Id row))]) :: fields row).

(** [currency.volatility] *)
Definition volatility (row : t) : Js.Value :=
  Js.assoc "volatility" (fields row).
End Row.

(** What [getTradeMetrics(currencyId, hoursAgo)] gives the trading cycle
    when the market data service answers the metrics query with a list:
    the array of samples, or an exception. *)
Definition MetricsClient := string -> Z -> Js.Result (list Metric.t).

(** [selectCurrenciesForTrading(currencies)]: a copy of the rows, reversed
    for the ["low"] profile, cut to its first ten. *)
Definition selectCurrenciesForTrading {A : Type} (riskProfile : string)
    (currencies : list A) : list A :=
  let selected :=
    if String.eqb riskProfile "low" then reverse currencies
    else currencies in
  take 10 selected.

(** One turn of the first loop of [startAITrading]: the record pushed for
    a row, with the fetched samples, or with no samples and the whole row
    as [volatilityData] when the fetch throws. *)
Definition fetch_record (bitqueryClient : MetricsClient) (currency : Row.t)
  : Currency.t :=
  match bitqueryClient (Row.Id currency) 24%Z with
  | Js.Ok tradeMetrics =>
      {| Currency.currencyId := Row.Id currency;
         Currency.volatilityData := Row.volatility currency;
         Currency.tradeMetrics := tradeMetrics |}
  | Js.Throw _ =>
      {| Currency.currencyId := Row.Id currency;
         Currency.volatilityData := Row.value currency;
         Currency.tradeMetrics := [] |}
  end.

Section Cycle.

Variable toFixed : float -> nat -> string.
Variable JSON_parse : string -> option Js.Value.
Variable toUpperCase toLowerCase : string -> string.
Variable buildMultiCurrencyPrompt :
  string -> list Currency.t -> Js.Result string.
Variable fetch : string -> string -> Js.Result Response.t.
Variable bitqueryClient : MetricsClient.

(** [Date.now()] at the [i]-th executed decision. *)
Variable clock : nat -> Z.

(** The third loop of [startAITrading], from index [i] on: the decision at
    the index (the record's fallback when the list has none there; that
    call is outside the loop's [try]) is executed and its message printed.
    The result is the printed messages and the engine after the loop; an
    exception ends the cycle. *)
Fixpoint execute_each (e : Engine.t) (i : nat) (records : list Currency.t)
    (geminiDecisions : list Decision.t)
  : Js.Result (list string * Engine.t) :=
  match records with
  | [] => Js.Ok ([], e)
  | c :: rest =>
      geminiDecision <-
        match geminiDecisions !! i with
        | Some d => Js.Ok d
        | None => fallback_of c
        end ;;
      let '(result, e1) := executeDecision toFixed e (clock i) geminiDecision in
      run <- execute_each e1 (S i) rest geminiDecisions ;;
      Js.Ok (Executed.message result :: run.1, run.2)
  end.

(** [startAITrading(currencies)] up to its closing wait for the interrupt:
    the records are fetched, resolved by one call of
    [analyzeMultipleWithAI], and executed in order. *)
Definition startAITrading (e : Engine.t) (currencies : list Row.t)
  : Js.Result (list string * Engine.t) :=
  let currenciesWithMetrics := map (fetch_record bitqueryClient) currencies in
  geminiDecisions <-
    analyzeMultipleWithAI JSON_parse toUpperCase toLowerCase
      buildMultiCurrencyPrompt fetch e currenciesWithMetrics ;;
  execute_each e 0 currenciesWithMetrics geminiDecisions.

End Cycle.

(* ===================================================================== *)
(** ** Profile selection (ui/terminal.js, strategies/baseStrategy.js) *)
(* ===================================================================== *)

Section Profiles.

(** [answer.trim()] *)
Variable trim : string -> string.

(** The two strategy texts of baseStrategy.js. *)
Variable lowRiskStrategy highRiskStrategy : string.

(** The profile [selectRiskProfile] resolves to for a typed answer. *)
Definition selectRiskProfile (answer : string) : string :=
  let choice := trim answer in
  if String.eqb choice "1" then "high"
  else if String.eqb choice "2" then "low"
  else "low".

Definition getStrategy (riskProfile : string) : string :=
  if String.eqb riskProfile "high" then highRiskStrategy
  else lowRiskStrategy.

End Profiles.

(* ===================================================================== *)
(** ** Market data client (services/bitquery.js) *)
(* ===================================================================== *)

Section Bitquery.

(** [fetch(this.baseURL, requestOptions)], by the request body. *)
Variable fetch : string -> string -> Js.Result Response.t.

(** [String(v)], the message [new Error(v)] takes. *)
Variable to_text : Js.Value -> string.

(** The request bodies of the two queries. *)
Variable volatility_request : string.
Variable metrics_request : string -> Z -> string.

Definition baseURL : string := "https://streaming.bitquery.io/graphql".

Definition unexpected_structure : Js.Error :=
  Js.PlainError "Unexpected response structure from Bitquery API".

(** The body both client methods share after building their query: the
    response checks, and the [catch] that logs and throws again. *)
Definition read_currencies (request : string) : Js.Result Js.Value :=
  Js.try_catch
    (response <- fetch baseURL request ;;
     if negb (Response.ok response) then
       errorText <- Response.text response ;;
       Js.Throw (Js.PlainError
         ("HTTP Error " +:+ pretty (Response.status response) +:+ ": "
          +:+ errorText))
     else
       result <- Response.json response ;;
       errors <- Js.get result "errors" ;;
       if Js.truthy errors then
         first <- Js.get0 errors ;;
         message <- Js.get first "message" ;;
         Js.Throw (Js.PlainError (to_text message))
       else
         data <- Js.get result "data" ;;
         if negb (Js.truthy data) then Js.Throw unexpected_structure else
         trading <- Js.get data "Trading" ;;
         if negb (Js.truthy trading) then Js.Throw unexpected_structure else
         currencies <- Js.get trading "Currencies" ;;
         if negb (Js.truthy currencies) then Js.Throw unexpected_structure
         else Js.Ok currencies)
    (fun error => Js.Throw error).

Definition getCurrencyVolatilityData : Js.Result Js.Value :=
  read_currencies volatility_request.

Definition getTradeMetrics (currencyId : string) (hoursAgo : Z)
  : Js.Result Js.Value :=
  read_currencies (metrics_request currencyId hoursAgo).

(** [result.data.Trading.Currencies] *)
Definition currencies_of (result : Js.Value) : Js.Result Js.Value :=
  data <- Js.get result "data" ;;
  trading <- Js.get data "Trading" ;;
  Js.get trading "Currencies".

End Bitquery.

(* ===================================================================== *)
(** ** Further notions used by the properties below *)
(* ===================================================================== *)

(** A value that [||] passes over: missing, zero or NaN. *)
Definition unusable (x : option float) : Prop :=
  match x with
  | Some v => Js.num_truthy v = false
  | None => True
  end.

(** The decision the response parser builds from an entry. *)
Definition parsed_decision (c : Currency.t) (action type : string)
    (r : Js.Value) : Decision.t :=
  {| Decision.currencyId := Currency.currencyId c;
     Decision.decision := decision_of_action action;
     Decision.positionType := type;
     Decision.confidence := 0.7;
     Decision.reasoning :=
       if Js.truthy r then r else Js.Str "Market analysis completed";
     Decision.entryPrice := parsed_entry_price (Currency.tradeMetrics c) |}.

(** Decision [d] for record [c] is built from the response entry [item],
    under the case mappings of the host. *)
Definition built_from (toUpperCase toLowerCase : string -> string)
    (c : Currency.t) (item : Js.Value) (d : Decision.t) : Prop :=
  ∃ action type r,
    Js.get item "currencyId" = Js.Ok (Js.Str (Currency.currencyId c))
    ∧ action_text toUpperCase item = Js.Ok action
    ∧ type_of_item toLowerCase item action = Js.Ok type
    ∧ Js.get item "reasoning" = Js.Ok r
    ∧ d = parsed_decision c action type r.

(** An [action] value other than a string, [null] or [undefined]: calling
    [toUpperCase] on it throws. *)
Definition not_text (a : Js.Value) : Prop :=
  match a with
  | Js.Undefined | Js.Null | Js.Str _ => False
  | _ => True
  end.

(** A stored position agrees with its identifier and with the profile of
    the engine. *)
Definition well_formed_position (params : RiskParams)
    (kp : string * Position.t) : Prop :=
  let position := kp.2 in
  parseCurrencyId (Position.currencyId position)
  = (Position.network position, Position.tokenAddress position)
  ∧ Position.tokenAddress position = kp.1
  ∧ Position.stopLoss position = stopLoss params
  ∧ Position.takeProfit position = takeProfit params
  ∧ Position.expectedProfit position
    = (Position.size position * (takeProfit params - 1))%float.

(** The ledger of an engine whose tag names a member of
    [Object.prototype]: every size is NaN, and so is the allocated
    capital once a position has been opened. *)
Definition unsized_ledger (e : Engine.t) : Prop :=
  Engine.capital e = 100000%float
  ∧ Engine.riskParams e = profile_inherited
  ∧ ((Engine.allocatedCapital e = 0%float ∧ Engine.positions e = [])
     ∨ Engine.allocatedCapital e = nan)
  ∧ Forall (fun kp => Position.size kp.2 = nan) (Engine.positions e).

(** The number of opens the capital guard lets through on a fresh engine
    whose tag is not a name of [Object.prototype]. *)
Definition open_slots (riskProfile : string) : nat :=
  if String.eqb riskProfile "low" then 9
  else if String.eqb riskProfile "high" then 3
  else 9.

(** Sample rows and a metrics client that fails for every identifier. *)
Module SampleCycle.

Definition row (id : string) (volatility : float) : Row.t :=
  {| Row.Id := id; Row.fields := [("volatility", Js.Num volatility)] |}.


Definition steady_metrics : MetricsClient :=
  fun _ _ => Js.Ok [Sample.flat 3 5 None].

Definition no_prompt (riskProfile : string) (records : list Currency.t)
  : Js.Result string := Js.Ok "prompt".

Definition unreachable_service (url body : string)
  : Js.Result Response.t := Js.Throw (Js.TypeError "fetch failed").

Definition clock (i : nat) : Z := Z.of_nat i.

End SampleCycle.

(* ===================================================================== *)
(** ** Identifier parser *)
(* ===================================================================== *)

Lemma split_cons (sep : ascii) (s : string) :
  ∃ part parts, Js.split sep s = part :: parts.
Proof.
  destruct s as [|c rest]; simpl; [by eauto|].
  destruct (Ascii.eqb c sep); [by eauto|].
  destruct (Js.split sep rest); eauto.
Qed.

Lemma join_cons_char (sep c : ascii) (part : string) (parts : list string) :
  Js.join sep (String c part :: parts) = String c (Js.join sep (part :: parts)).
Proof. by destruct parts. Qed.

Lemma join_split (sep : ascii) (s : string) :
  Js.join sep (Js.split sep s) = s.
Proof.
  induction s as [|c rest IH]; [done|].
  simpl. destruct (Ascii.eqb_spec c sep) as [->|Hne].
  - destruct (split_cons sep rest) as (part & parts & Hsplit).
    rewrite Hsplit in IH |- *.
    change (Js.join sep (EmptyString :: part :: parts))
      with (String sep (Js.join sep (part :: parts))).
    by rewrite IH.
  - destruct (split_cons sep rest) as (part & parts & Hsplit).
    rewrite Hsplit in IH |- *. by rewrite join_cons_char, IH.
Qed.

Lemma length_split (sep : ascii) (s : string) :
  length (Js.split sep s) = S (Js.count_char sep s).
Proof.
  induction s as [|c rest IH]; [done|].
  simpl. destruct (Ascii.eqb c sep); simpl; [by rewrite IH|].
  destruct (split_cons sep rest) as (part & parts & Hsplit).
  rewrite Hsplit in IH |- *. exact IH.
Qed.

(** C8. [parseCurrencyId] is a total function of its string argument (it
    has no failing case). With [parts] the pieces of the identifier between
    its colons (joining them with colons gives the identifier back, and
    there is one more piece than colons): three pieces give
    [(parts[1], parts[2])], two pieces give [("ethereum", parts[1])], any
    other number gives [("unknown", identifier)]. The three identifiers of
    the specification parse as it states. *)
Theorem parseCurrencyId_by_part_count (currencyId : string) :
  let parts := Js.split Js.colon currencyId in
  Js.join Js.colon parts = currencyId
  ∧ length parts = S (Js.count_char Js.colon currencyId)
  ∧ parseCurrencyId currencyId =
      (if decide (length parts = 3) then (nth 1 parts "", nth 2 parts "")
       else if decide (length parts = 2) then ("ethereum", nth 1 parts "")
       else ("unknown", currencyId))
  ∧ parseCurrencyId "bid:solana:ADDR123" = ("solana", "ADDR123")
  ∧ parseCurrencyId "eth:ADDR456" = ("ethereum", "ADDR456")
  ∧ parseCurrencyId "garbage" = ("unknown", "garbage").
Proof.
  intros parts. split; [apply join_split|].
  split; [apply length_split|].
  split; [|by repeat split].
  unfold parseCurrencyId. fold parts.
  destruct parts as [|p0 [|p1 [|p2 [|p3 rest]]]]; simpl; try done.
Qed.

(* ===================================================================== *)
(** ** Capital guard, realized P&L, close without a position *)
(* ===================================================================== *)

(** C4. When [allocatedCapital >= capital * 0.9], [openPosition] returns
    [null] and the engine (positions, allocatedCapital, capital) is the one
    it was called on. *)
Theorem openPosition_guard_rejects (e : Engine.t) (now : Z)
    (aiDecision : Decision.t) :
  Js.ge (Engine.allocatedCapital e) (Engine.capital e * 0.9)%float = true →
  openPosition e now aiDecision = (None, e).
Proof. intros Hguard. unfold openPosition. by rewrite Hguard. Qed.

Lemma openPosition_guard_rejects_witness :
  Engine.allocatedCapital Sample.full_engine = 90000%float
  ∧ openPosition Sample.full_engine 4
      (Sample.decide_on "bid:solana:DDD" open "long" 7)
    = (None, Sample.full_engine).
Proof.
  split; [reflexivity|].
  apply (openPosition_guard_rejects Sample.full_engine 4
           (Sample.decide_on "bid:solana:DDD" open "long" 7)).
  reflexivity.
Defined.

(** C6. [closePosition] realizes
    [(currentPrice - entryPrice) / entryPrice * size] on a position whose
    type is ["long"], and
    [(entryPrice - currentPrice) / entryPrice * size] on any other type;
    a long position of size 30000 entered at 100 and closed at 115
    realizes exactly 4500. *)
Theorem closePosition_pnl (e : Engine.t) (position : Position.t)
    (currentPrice : float) :
  let closed := (closePosition e position currentPrice).1 in
  let entry := Position.entryPrice position in
  let size := Position.size position in
  Closed.position closed = position
  ∧ Closed.currentPrice closed = currentPrice
  ∧ (Position.type position = "long" →
     Closed.pnl closed = ((currentPrice - entry) / entry * size)%float)
  ∧ (Position.type position ≠ "long" →
     Closed.pnl closed = ((entry - currentPrice) / entry * size)%float)
  ∧ (Position.type position = "long" → size = 30000%float →
     entry = 100%float →
     Closed.pnl (closePosition e position 115).1 = 4500%float)
  ∧ Closed.pnl (closePosition e (Sample.long_position 30000 100) 115).1
    = 4500%float.
Proof.
  simpl. unfold realized_pnl. repeat split.
  - intros ->. reflexivity.
  - intros Hne. destruct (String.eqb_spec (Position.type position) "long");
      [contradiction|reflexivity].
  - intros -> -> ->. reflexivity.
Qed.

(** C10. A decision whose action is [close] and whose parsed address has no
    open position leaves the engine as it was: [executeDecision] returns
    the empty message (with the decision and the display name), and the
    engine after the call is the engine before it. *)
Theorem executeDecision_close_absent (toFixed : float -> nat -> string)
    (e : Engine.t) (now : Z) (aiDecision : Decision.t) :
  Decision.decision aiDecision = close →
  JsMap.get (parseCurrencyId (Decision.currencyId aiDecision)).2
    (Engine.positions e) = None →
  executeDecision toFixed e now aiDecision =
    ({| Executed.message := "";
        Executed.decision := close;
        Executed.currencyId := display_name (Decision.currencyId aiDecision) |},
     e).
Proof.
  intros Hclose Habsent. unfold executeDecision.
  destruct (parseCurrencyId (Decision.currencyId aiDecision)) as [network address].
  simpl in Habsent. by rewrite Hclose, Habsent.
Qed.

Lemma executeDecision_close_absent_witness :
  executeDecision Sample.toFixed Sample.full_engine 9
    (Sample.decide_on "bid:solana:ZZZ" close "long" 4)
  = ({| Executed.message := "";
        Executed.decision := close;
        Executed.currencyId := "solana/ZZZ...ZZZ" |},
     Sample.full_engine).
Proof.
  apply (executeDecision_close_absent Sample.toFixed Sample.full_engine 9
           (Sample.decide_on "bid:solana:ZZZ" close "long" 4));
    reflexivity.
Defined.

(* ===================================================================== *)
(** ** Comparisons of numbers that are not NaN *)
(* ===================================================================== *)

Lemma SFcompare_antisym (x y : spec_float) (c : comparison) :
  SFcompare x y = Some c → SFcompare y x = Some (CompOpp c).
Proof.
  destruct x as [sx|sx| |sx mx ex], y as [sy|sy| |sy my ey]; simpl;
    try (intros [= <-]; by repeat case_match).
  intros [= <-]. f_equal.
  destruct sx, sy; simpl; try done.
  - rewrite (Z.compare_antisym ex ey).
    destruct (ex ?= ey)%Z; simpl; try done.
    rewrite CompOpp_involutive. apply (Pos.compare_cont_antisym my mx Eq).
  - rewrite (Z.compare_antisym ex ey).
    destruct (ex ?= ey)%Z; simpl; try done.
    symmetry. apply (Pos.compare_cont_antisym mx my Eq).
Qed.

Lemma SFcompare_defined (x y : spec_float) :
  x ≠ S754_nan → y ≠ S754_nan → ∃ c, SFcompare x y = Some c.
Proof. destruct x, y; simpl; intros; try done; eauto. Qed.

Lemma not_nan_spec (x : float) :
  PrimFloat.is_nan x = false → Prim2SF x ≠ S754_nan.
Proof.
  unfold PrimFloat.is_nan. rewrite FloatAxioms.eqb_spec. unfold SFeqb.
  intros Hx Hnan. by rewrite Hnan in Hx.
Qed.

(** For numbers, [!(a > b)] is [a <= b]. *)
Lemma not_gt_le (a b : float) :
  PrimFloat.is_nan a = false → PrimFloat.is_nan b = false →
  negb (Js.gt a b) = Js.le a b.
Proof.
  intros Ha%not_nan_spec Hb%not_nan_spec. unfold Js.gt, Js.le.
  rewrite FloatAxioms.ltb_spec, FloatAxioms.leb_spec. unfold SFltb, SFleb.
  destruct (SFcompare_defined _ _ Ha Hb) as [c Hc].
  rewrite Hc, (SFcompare_antisym _ _ _ Hc). by destruct c.
Qed.

(* ===================================================================== *)
(** ** Fallback heuristic *)
(* ===================================================================== *)

Lemma fallbackDecision_currencyId (currencyId : string)
    (volatilityData : Js.Value) (tradeMetrics : list Metric.t)
    (d : Decision.t) :
  fallbackDecision currencyId volatilityData tradeMetrics = Js.Ok d →
  Decision.currencyId d = currencyId.
Proof.
  unfold fallbackDecision.
  destruct (last tradeMetrics) as [latest|]; [|by intros [= <-]].
  destruct (Metric.Price latest) as [price|]; [|by intros [= <-]].
  destruct (Metric.Ohlc price) as [ohlc|]; [|done].
  cbv zeta. destruct (Js.gt _ _), (Js.gt _ _); by intros [= <-].
Qed.

(** The heuristic returns exactly on the records that carry the OHLC it
    reads, and throws the one [TypeError] on the others. *)
Lemma fallback_of_defined (c : Currency.t) :
  carries_ohlc c = true → ∃ d, fallback_of c = Js.Ok d.
Proof.
  unfold carries_ohlc, fallback_of, fallbackDecision.
  destruct (last (Currency.tradeMetrics c)) as [latest|]; [|by eexists].
  destruct (Metric.Price latest) as [price|]; [|by eexists].
  destruct (Metric.Ohlc price) as [ohlc|];
    [|by intros [??]%bool_decide_eq_true].
  intros _. cbv zeta. destruct (Js.gt _ _), (Js.gt _ _); by eexists.
Qed.

Lemma fallback_of_throws (c : Currency.t) :
  carries_ohlc c = false → fallback_of c = Js.Throw missing_ohlc.
Proof.
  unfold carries_ohlc, fallback_of, fallbackDecision.
  destruct (last (Currency.tradeMetrics c)) as [latest|]; [|done].
  destruct (Metric.Price latest) as [price|]; [|done].
  destruct (Metric.Ohlc price) as [ohlc|]; [|done].
  intros Hnone%bool_decide_eq_false. destruct Hnone. by eexists.
Qed.

Lemma fallback_of_thrown (c : Currency.t) (err : Js.Error) :
  fallback_of c = Js.Throw err →
  err = missing_ohlc ∧ carries_ohlc c = false.
Proof.
  destruct (carries_ohlc c) eqn:Hc.
  - destruct (fallback_of_defined c Hc) as [d ->]. done.
  - rewrite (fallback_of_throws c Hc). by intros [= <-].
Qed.

(** C5, as stated, fails on a sample whose weighted moving average is
    reported as zero (open 3, close 5, no estimate): read as a present
    value it would give [close > sma] and [close > open], hence open/long;
    the code treats the zero as missing, compares with [sma = close] and
    holds. *)
Lemma fallback_zero_average_counterexample :
  ¬ fallback_as_stated
      (Sample.record "bid:solana:ADDR123" [Sample.zero_average]).
Proof.
  unfold fallback_as_stated. simpl. intros (d & Hd & _ & Hrule).
  vm_compute in Hd. injection Hd as <-.
  vm_compute in Hrule. destruct Hrule as [Hopen _]. discriminate Hopen.
Qed.

(** C5, amended. For a record with no samples the heuristic holds with
    confidence 0.5 (as it does when the latest sample has no [Price]).
    Otherwise, with [close] and [open] from the latest sample's OHLC,
    [estimate] the estimated price unless that is missing, zero or NaN, in
    which case [close], and [sma] the weighted moving average unless that
    is missing, zero or NaN, in which case [estimate]: the decision has
    confidence 0.6 and reference price [estimate]; it is open/long when
    [close > sma] and [close > open], open/short when neither comparison
    holds, and hold when exactly one holds. For numbers that are not NaN
    "neither holds" is [close <= sma] and [close <= open]. A [Price]
    without its OHLC makes the heuristic throw. *)
Theorem fallbackDecision_heuristic (currencyId : string)
    (volatilityData : Js.Value) (tradeMetrics : list Metric.t) :
  let outcome := fallbackDecision currencyId volatilityData tradeMetrics in
  match last tradeMetrics with
  | None =>
      ∃ d, outcome = Js.Ok d
           ∧ Decision.decision d = hold ∧ Decision.confidence d = 0.5%float
  | Some latestMetric =>
      match Metric.Price latestMetric with
      | None =>
          ∃ d, outcome = Js.Ok d
               ∧ Decision.decision d = hold
               ∧ Decision.confidence d = 0.5%float
      | Some price =>
          match Metric.Ohlc price with
          | None => outcome = Js.Throw missing_ohlc
          | Some ohlc =>
              let closeP := Metric.Close ohlc in
              let openP := Metric.Open ohlc in
              let estimate :=
                Js.num_or (a ← Metric.Average price; Metric.Estimate a)
                  closeP in
              let sma :=
                Js.num_or
                  (a ← Metric.Average price; Metric.WeightedSimpleMoving a)
                  estimate in
              ∃ d, outcome = Js.Ok d
                ∧ Decision.confidence d = 0.6%float
                ∧ Decision.entryPrice d = estimate
                ∧ (Js.gt closeP sma = true → Js.gt closeP openP = true →
                   Decision.decision d = open
                   ∧ Decision.positionType d = "long")
                ∧ (Js.gt closeP sma = false → Js.gt closeP openP = false →
                   Decision.decision d = open
                   ∧ Decision.positionType d = "short")
                ∧ (Js.gt closeP sma ≠ Js.gt closeP openP →
                   Decision.decision d = hold)
                ∧ (PrimFloat.is_nan closeP = false →
                   PrimFloat.is_nan openP = false →
                   PrimFloat.is_nan sma = false →
                   (Js.gt closeP sma = false ↔ Js.le closeP sma = true)
                   ∧ (Js.gt closeP openP = false
                      ↔ Js.le closeP openP = true))
          end
      end
  end.
Proof.
  intros outcome. subst outcome. unfold fallbackDecision.
  destruct (last tradeMetrics) as [latest|]; [|by eexists].
  destruct (Metric.Price latest) as [price|]; [|by eexists].
  destruct (Metric.Ohlc price) as [ohlc|]; [|done].
  cbv zeta.
  set (closeP := Metric.Close ohlc).
  set (openP := Metric.Open ohlc).
  set (estimate := Js.num_or _ closeP).
  set (sma := Js.num_or _ estimate).
  destruct (Js.gt closeP sma) eqn:Hsma, (Js.gt closeP openP) eqn:Hopen;
    simpl; (eexists; split; [reflexivity|]); simpl;
    (split_and!; try done);
    intros Hc Ho Hs;
    pose proof (not_gt_le closeP sma Hc Hs) as H1;
    pose proof (not_gt_le closeP openP Hc Ho) as H2;
    rewrite Hsma in H1; rewrite Hopen in H2; simpl in H1, H2;
    split; split; congruence.
Qed.

(* ===================================================================== *)
(** ** Batch decision resolver *)
(* ===================================================================== *)

Lemma try_catch_same {A : Type} (r : Js.Result A) :
  Js.try_catch r (fun _ => r) = r.
Proof. by destruct r. Qed.

Lemma try_catch_twice {A : Type} (body r : Js.Result A) :
  Js.try_catch (Js.try_catch body (fun _ => r)) (fun _ => r)
  = Js.try_catch body (fun _ => r).
Proof. destruct body; simpl; [done|by destruct r]. Qed.

Lemma map_throwing_each {A B : Type} (f : A → Js.Result B) (items : list A)
    (bs : list B) :
  Js.map_throwing f items = Js.Ok bs →
  Forall2 (fun a b => f a = Js.Ok b) items bs.
Proof.
  revert bs. induction items as [|a items IH]; intros bs; simpl.
  - intros [= <-]. constructor.
  - destruct (f a) as [b|] eqn:Hb; [|done]. simpl.
    destruct (Js.map_throwing f items) as [bs'|]; [|done]. simpl.
    intros [= <-]. constructor; [exact Hb|by apply IH].
Qed.

Lemma map_throwing_defined {A B : Type} (f : A → Js.Result B)
    (items : list A) :
  Forall (fun a => ∃ b, f a = Js.Ok b) items →
  ∃ bs, Js.map_throwing f items = Js.Ok bs.
Proof.
  induction 1 as [|a items [b Hb] _ [bs IH]]; simpl; [by eexists|].
  rewrite Hb, IH. by eexists.
Qed.

Lemma fallback_all_each (cs : list Currency.t) (ds : list Decision.t) :
  fallback_all cs = Js.Ok ds →
  Forall2 (fun c d => fallback_of c = Js.Ok d) cs ds.
Proof. apply map_throwing_each. Qed.

Lemma fallback_all_lookup (cs : list Currency.t) (ds : list Decision.t)
    (i : nat) (c : Currency.t) :
  fallback_all cs = Js.Ok ds → cs !! i = Some c →
  ∃ d, ds !! i = Some d ∧ fallback_of c = Js.Ok d.
Proof.
  intros Hds%fallback_all_each Hc.
  by apply (Forall2_lookup_l _ _ _ _ _ Hds Hc).
Qed.

Lemma fallback_all_answers (cs : list Currency.t) (ds : list Decision.t) :
  fallback_all cs = Js.Ok ds → Forall2 answers cs ds.
Proof.
  intros Hds%fallback_all_each. eapply Forall2_impl; [exact Hds|].
  intros c d. apply fallbackDecision_currencyId.
Qed.

Lemma fallback_all_defined (cs : list Currency.t) :
  Forall (fun c => carries_ohlc c = true) cs →
  ∃ ds, fallback_all cs = Js.Ok ds.
Proof.
  intros Hcs. apply map_throwing_defined.
  eapply Forall_impl; [exact Hcs|]. apply fallback_of_defined.
Qed.

(** One record without the OHLC makes the fallback of the batch throw. *)
Lemma fallback_all_throws (cs : list Currency.t) (c : Currency.t) :
  c ∈ cs → carries_ohlc c = false →
  fallback_all cs = Js.Throw missing_ohlc.
Proof.
  intros Hin Hc. unfold fallback_all.
  induction cs as [|c0 cs IH]; [by inversion Hin|]. simpl.
  destruct (fallback_of c0) as [d0|err] eqn:Hc0.
  - simpl. apply elem_of_cons in Hin as [<-|Hin].
    + by rewrite (fallback_of_throws c Hc) in Hc0.
    + by rewrite (IH Hin).
  - simpl. by destruct (fallback_of_thrown _ _ Hc0) as [-> _].
Qed.

Section ResolverFacts.

Variable JSON_parse : string -> option Js.Value.
Variable toUpperCase toLowerCase : string -> string.
Variable buildMultiCurrencyPrompt :
  string -> list Currency.t -> Js.Result string.
Variable fetch : string -> string -> Js.Result Response.t.

Lemma match_decision_answers (decisionMap : gmap string Js.Value)
    (c : Currency.t) (d : Decision.t) :
  match_decision toUpperCase toLowerCase decisionMap c = Js.Ok d →
  answers c d.
Proof.
  unfold match_decision, answers.
  destruct (decisionMap !! Currency.currencyId c) as [item|];
    [destruct (Js.truthy item)|];
    try apply fallbackDecision_currencyId.
  destruct (action_text toUpperCase item) as [action|]; [|done]. simpl.
  destruct (type_of_item toLowerCase item action) as [type|]; [|done]. simpl.
  destruct (Js.get item "reasoning") as [r|]; [|done]. simpl.
  by intros [= <-].
Qed.

Lemma match_decision_omitted (decisionMap : gmap string Js.Value)
    (c : Currency.t) :
  decisionMap !! Currency.currencyId c = None →
  match_decision toUpperCase toLowerCase decisionMap c = fallback_of c.
Proof. intros Hnone. unfold match_decision. by rewrite Hnone. Qed.

Lemma match_decisions_each (decisionMap : gmap string Js.Value)
    (cs : list Currency.t) (ds : list Decision.t) :
  match_decisions toUpperCase toLowerCase decisionMap cs = Js.Ok ds →
  Forall2
    (fun c d => match_decision toUpperCase toLowerCase decisionMap c = Js.Ok d)
    cs ds.
Proof.
  revert ds. induction cs as [|c cs IH]; intros ds; simpl.
  - intros [= <-]. constructor.
  - destruct (match_decision toUpperCase toLowerCase decisionMap c)
      as [d|] eqn:Hd; [|done]. simpl.
    destruct (match_decisions toUpperCase toLowerCase decisionMap cs)
      as [ds'|]; [|done]. simpl.
    intros [= <-]. constructor; [exact Hd|by apply IH].
Qed.

Lemma match_decisions_throw (decisionMap : gmap string Js.Value)
    (cs : list Currency.t) (c : Currency.t) (err : Js.Error) :
  c ∈ cs →
  match_decision toUpperCase toLowerCase decisionMap c = Js.Throw err →
  ∃ err',
    match_decisions toUpperCase toLowerCase decisionMap cs = Js.Throw err'.
Proof.
  intros Hin Hthrow. induction cs as [|c0 cs IH]; [by inversion Hin|].
  simpl. apply elem_of_cons in Hin as [<-|Hin].
  - rewrite Hthrow. by eexists.
  - destruct (match_decision toUpperCase toLowerCase decisionMap c0);
      [|by eexists]. simpl.
    destruct (IH Hin) as [err' ->]. by eexists.
Qed.

(** An entry of the lookup comes from the response and carries the key as
    its [currencyId]. *)
Lemma build_decision_map_lookup (items : list Js.Value)
    (m0 m : gmap string Js.Value) (k : string) (item : Js.Value) :
  build_decision_map items m0 = Js.Ok m →
  m !! k = Some item →
  m0 !! k = Some item
  ∨ (item ∈ items ∧ Js.get item "currencyId" = Js.Ok (Js.Str k)).
Proof.
  revert m0. induction items as [|it items IH]; intros m0; simpl.
  - intros [= <-]. by left.
  - destruct (Js.get it "currencyId") as [cid|] eqn:Hcid; [|done]. simpl.
    intros Hbuild Hk.
    destruct (IH _ Hbuild Hk) as [Hm0|[Hin Hget]].
    + destruct (Js.truthy cid); [|by left].
      destruct cid as [| | | |s| |]; try by left.
      destruct (decide (s = k)) as [->|Hne].
      * rewrite lookup_insert_eq in Hm0. injection Hm0 as <-.
        right. split; [by left|done].
      * rewrite lookup_insert_ne in Hm0 by done. by left.
    + right. split; [by right|done].
Qed.

Lemma build_decision_map_other (items : list Js.Value)
    (m0 m : gmap string Js.Value) (k : string) :
  build_decision_map items m0 = Js.Ok m →
  (∀ it, it ∈ items → Js.get it "currencyId" ≠ Js.Ok (Js.Str k)) →
  m !! k = m0 !! k.
Proof.
  revert m0. induction items as [|it items IH]; intros m0; simpl.
  - by intros [= <-].
  - destruct (Js.get it "currencyId") as [cid|] eqn:Hcid; [|done]. simpl.
    intros Hbuild Hother.
    rewrite (IH _ Hbuild) by (intros it' Hin; apply Hother; by right).
    destruct (Js.truthy cid); [|done].
    destruct cid as [| | | |s| |]; try done.
    apply lookup_insert_ne. intros ->. by apply (Hother it); [left|].
Qed.

Lemma parse_response_body_answers (gptText : Js.Value)
    (cs : list Currency.t) (ds : list Decision.t) :
  parse_response_body JSON_parse toUpperCase toLowerCase gptText cs
  = Js.Ok ds →
  Forall2 answers cs ds.
Proof.
  unfold parse_response_body, parse_json.
  destruct gptText as [| | | |text| |]; try done.
  destruct (Js.match_json_array text) as [jsonMatch|]; [|done].
  destruct (JSON_parse jsonMatch) as [jsonData|]; [|done]. simpl.
  destruct jsonData as [| | | | |items|]; try done.
  destruct (build_decision_map items ∅) as [decisionMap|]; [|done]. simpl.
  intros Hds%match_decisions_each.
  eapply Forall2_impl; [exact Hds|].
  intros c d. apply match_decision_answers.
Qed.

(** Every list the response parser returns answers the batch in order. *)
Lemma parseMultiCurrencyResponse_answers (gptText : Js.Value)
    (cs : list Currency.t) (ds : list Decision.t) :
  parseMultiCurrencyResponse JSON_parse toUpperCase toLowerCase gptText cs
  = Js.Ok ds →
  Forall2 answers cs ds.
Proof.
  unfold parseMultiCurrencyResponse.
  destruct (parse_response_body JSON_parse toUpperCase toLowerCase gptText cs)
    as [ds'|err] eqn:Hbody; simpl.
  - intros [= <-]. by eapply parse_response_body_answers.
  - apply fallback_all_answers.
Qed.

(** On a batch whose records carry the OHLC the heuristic reads, the
    response parser returns a list in every case. *)
Lemma parseMultiCurrencyResponse_defined (gptText : Js.Value)
    (cs : list Currency.t) :
  Forall (fun c => carries_ohlc c = true) cs →
  ∃ ds,
    parseMultiCurrencyResponse JSON_parse toUpperCase toLowerCase gptText cs
    = Js.Ok ds.
Proof.
  intros Hcs. unfold parseMultiCurrencyResponse.
  destruct (parse_response_body JSON_parse toUpperCase toLowerCase gptText cs)
    as [ds|err]; simpl;
    [by eexists|by apply fallback_all_defined].
Qed.

(** A text without a parsed array degrades the whole batch. *)
Lemma parseMultiCurrencyResponse_unparsed (gptText : Js.Value)
    (cs : list Currency.t) :
  response_items JSON_parse gptText = None →
  parseMultiCurrencyResponse JSON_parse toUpperCase toLowerCase gptText cs
  = fallback_all cs.
Proof.
  unfold response_items, parseMultiCurrencyResponse,
    parse_response_body, parse_json.
  destruct gptText as [| | | |text| |]; try done.
  destruct (Js.match_json_array text) as [jsonMatch|]; [|done].
  destruct (JSON_parse jsonMatch) as [jsonData|]; [|done]. simpl.
  by destruct jsonData.
Qed.

(** A record the parsed array has no entry for takes its fallback. *)
Lemma parseMultiCurrencyResponse_omitted (gptText : Js.Value)
    (items : list Js.Value) (cs : list Currency.t) (ds : list Decision.t)
    (i : nat) (c : Currency.t) :
  response_items JSON_parse gptText = Some items →
  parseMultiCurrencyResponse JSON_parse toUpperCase toLowerCase gptText cs
  = Js.Ok ds →
  cs !! i = Some c →
  (∀ item, item ∈ items →
     Js.get item "currencyId" ≠ Js.Ok (Js.Str (Currency.currencyId c))) →
  ∃ d, ds !! i = Some d ∧ fallback_of c = Js.Ok d.
Proof.
  unfold response_items, parseMultiCurrencyResponse,
    parse_response_body, parse_json.
  destruct gptText as [| | | |text| |]; try done.
  destruct (Js.match_json_array text) as [jsonMatch|]; [|done].
  destruct (JSON_parse jsonMatch) as [jsonData|]; [|done]. simpl.
  destruct jsonData as [| | | | |items'|]; try done.
  intros [= ->] Hparse Hc Homitted.
  destruct (build_decision_map items ∅) as [decisionMap|] eqn:Hmap;
    simpl in *; [|by eapply fallback_all_lookup].
  destruct (match_decisions toUpperCase toLowerCase decisionMap cs)
    as [ds'|] eqn:Hds; simpl in *;
    [|by eapply fallback_all_lookup].
  injection Hparse as <-. apply match_decisions_each in Hds.
  destruct (Forall2_lookup_l _ _ _ _ _ Hds Hc) as (d & Hd & Hmatch).
  exists d. split; [done|].
  rewrite match_decision_omitted in Hmatch; [done|].
  rewrite (build_decision_map_other _ _ _ _ Hmap Homitted).
  apply lookup_empty.
Qed.

(** A record without the OHLC that the parsed array has no entry for
    makes the response parser throw: the fallback call throws inside the
    [try], and the [catch] calls it again. *)
Lemma parseMultiCurrencyResponse_omitted_throws (gptText : Js.Value)
    (items : list Js.Value) (cs : list Currency.t) (c : Currency.t) :
  response_items JSON_parse gptText = Some items →
  c ∈ cs → carries_ohlc c = false →
  (∀ item, item ∈ items →
     Js.get item "currencyId" ≠ Js.Ok (Js.Str (Currency.currencyId c))) →
  parseMultiCurrencyResponse JSON_parse toUpperCase toLowerCase gptText cs
  = Js.Throw missing_ohlc.
Proof.
  unfold response_items, parseMultiCurrencyResponse,
    parse_response_body, parse_json.
  destruct gptText as [| | | |text| |]; try done.
  destruct (Js.match_json_array text) as [jsonMatch|]; [|done].
  destruct (JSON_parse jsonMatch) as [jsonData|]; [|done]. simpl.
  destruct jsonData as [| | | | |items'|]; try done.
  intros [= ->] Hin Hc Homitted.
  destruct (build_decision_map items ∅) as [decisionMap|] eqn:Hmap;
    simpl; [|by eapply fallback_all_throws].
  assert (Hthrow : match_decision toUpperCase toLowerCase decisionMap c
                   = Js.Throw missing_ohlc).
  { rewrite match_decision_omitted; [by apply fallback_of_throws|].
    rewrite (build_decision_map_other _ _ _ _ Hmap Homitted).
    apply lookup_empty. }
  destruct (match_decisions_throw _ _ _ _ Hin Hthrow) as [err' ->].
  simpl. by eapply fallback_all_throws.
Qed.

(** [analyzeMultipleWithAI] by the stage at which the request ended. *)
Lemma analyzeMultipleWithAI_by_outcome (e : Engine.t) (cs : list Currency.t) :
  analyzeMultipleWithAI JSON_parse toUpperCase toLowerCase
    buildMultiCurrencyPrompt fetch e cs =
  match service_outcome buildMultiCurrencyPrompt fetch e cs with
  | ResponseText gptText =>
      parseMultiCurrencyResponse JSON_parse toUpperCase toLowerCase gptText cs
  | _ => fallback_all cs
  end.
Proof.
  unfold analyzeMultipleWithAI, service_outcome, analyze_body.
  destruct (key_present (Engine.geminiApiKey e)); [|done]. simpl.
  destruct (buildMultiCurrencyPrompt _ cs) as [prompt|]; [|done]. simpl.
  destruct (fetch _ prompt) as [response|]; [|done]. simpl.
  destruct (Response.ok response); simpl;
    [|destruct (Response.text response); simpl;
      [apply try_catch_same|done]].
  destruct (Response.json response) as [data|]; [|done]. simpl.
  destruct (Js.get data "error") as [err|]; [|done]. simpl.
  destruct (Js.truthy err); [apply try_catch_same|].
  destruct (first_part data) as [[part0|]|]; simpl;
    [|apply try_catch_same|done].
  destruct (Js.get part0 "text") as [gptText|]; [|done]. simpl.
  apply try_catch_twice.
Qed.

(** Every list [analyzeMultipleWithAI] returns answers the batch in
    order. *)
Lemma analyzeMultipleWithAI_answers (e : Engine.t) (cs : list Currency.t)
    (ds : list Decision.t) :
  analyzeMultipleWithAI JSON_parse toUpperCase toLowerCase
    buildMultiCurrencyPrompt fetch e cs = Js.Ok ds →
  Forall2 answers cs ds.
Proof.
  rewrite analyzeMultipleWithAI_by_outcome.
  destruct (service_outcome buildMultiCurrencyPrompt fetch e cs);
    try apply fallback_all_answers.
  apply parseMultiCurrencyResponse_answers.
Qed.

(** On a batch whose records carry the OHLC the heuristic reads,
    [analyzeMultipleWithAI] returns a list for every behaviour of its
    collaborators. *)
Lemma analyzeMultipleWithAI_defined (e : Engine.t) (cs : list Currency.t) :
  Forall (fun c => carries_ohlc c = true) cs →
  ∃ ds,
    analyzeMultipleWithAI JSON_parse toUpperCase toLowerCase
      buildMultiCurrencyPrompt fetch e cs = Js.Ok ds.
Proof.
  intros Hcs. rewrite analyzeMultipleWithAI_by_outcome.
  destruct (service_outcome buildMultiCurrencyPrompt fetch e cs);
    try (by apply fallback_all_defined).
  by apply parseMultiCurrencyResponse_defined.
Qed.

End ResolverFacts.

(** X23. Order correspondence and the fallback of every affected record
    hold on the batches whose records carry the OHLC the heuristic reads:
    for every behaviour of the prompt builder, of the reasoning service,
    of [JSON.parse] and of the case mappings, the resolver returns one
    decision per record, in order, the i-th with the i-th record's
    identifier, and the empty list for the empty batch; the list is the
    fallback of every record at each failure stage (key absent, prompt
    builder throwing, transport error, HTTP error status, body that is
    not JSON, error reported by the API, missing structure) and for a text
    without a parsed array, and a record the parsed array omits takes its
    own fallback. *)
Theorem analyzeMultipleWithAI_with_ohlc
    (JSON_parse : string -> option Js.Value)
    (toUpperCase toLowerCase : string -> string)
    (buildMultiCurrencyPrompt : string -> list Currency.t -> Js.Result string)
    (fetch : string -> string -> Js.Result Response.t)
    (e : Engine.t) (cs : list Currency.t) :
  Forall (fun c => carries_ohlc c = true) cs →
  ∃ ds,
    analyzeMultipleWithAI JSON_parse toUpperCase toLowerCase
      buildMultiCurrencyPrompt fetch e cs = Js.Ok ds
    ∧ length ds = length cs
    ∧ (∀ i c, cs !! i = Some c →
         ∃ d, ds !! i = Some d
              ∧ Decision.currencyId d = Currency.currencyId c)
    ∧ (cs = [] → ds = [])
    ∧ match service_outcome buildMultiCurrencyPrompt fetch e cs with
      | ResponseText gptText =>
          match response_items JSON_parse gptText with
          | None => fallback_all cs = Js.Ok ds
          | Some items =>
              ∀ i c, cs !! i = Some c →
                (∀ item, item ∈ items →
                   Js.get item "currencyId"
                   ≠ Js.Ok (Js.Str (Currency.currencyId c))) →
                ∃ d, ds !! i = Some d ∧ fallback_of c = Js.Ok d
          end
      | _ => fallback_all cs = Js.Ok ds
      end.
Proof.
  intros Hcs.
  destruct (analyzeMultipleWithAI_defined JSON_parse toUpperCase toLowerCase
              buildMultiCurrencyPrompt fetch e cs Hcs) as [ds Hds].
  exists ds. split; [done|].
  pose proof (analyzeMultipleWithAI_answers _ _ _ _ _ e cs ds Hds)
    as Hanswers.
  split; [symmetry; by eapply Forall2_length|].
  split; [intros i c Hc; by apply (Forall2_lookup_l _ _ _ _ _ Hanswers Hc)|].
  split; [intros ->; by inversion Hanswers|].
  rewrite analyzeMultipleWithAI_by_outcome in Hds.
  destruct (service_outcome buildMultiCurrencyPrompt fetch e cs)
    as [| | | | | | |gptText]; try done.
  destruct (response_items JSON_parse gptText) as [items|] eqn:Hitems.
  - intros i c Hc Homitted. by eapply parseMultiCurrencyResponse_omitted.
  - by rewrite parseMultiCurrencyResponse_unparsed in Hds.
Qed.

Lemma analyzeMultipleWithAI_with_ohlc_witness :
  ∃ ds,
    analyzeMultipleWithAI (Sample.parse_as []) Sample.toUpperCase
      Sample.toLowerCase SampleCycle.no_prompt
      SampleCycle.unreachable_service (new_engine "low" (Some "key"))
      [Sample.record "bid:solana:AAA" [Sample.flat 3 5 None];
       Sample.record "bid:solana:CCC" []]
    = Js.Ok ds
    ∧ length ds = 2.
Proof.
  assert (Hcs : Forall (fun c => carries_ohlc c = true)
                  [Sample.record "bid:solana:AAA" [Sample.flat 3 5 None];
                   Sample.record "bid:solana:CCC" []]).
  { repeat constructor. }
  destruct (analyzeMultipleWithAI_with_ohlc (Sample.parse_as [])
              Sample.toUpperCase Sample.toLowerCase SampleCycle.no_prompt
              SampleCycle.unreachable_service (new_engine "low" (Some "key"))
              [Sample.record "bid:solana:AAA" [Sample.flat 3 5 None];
               Sample.record "bid:solana:CCC" []] Hcs)
    as (ds & Hds & Hlen & _).
  exists ds. split; [exact Hds|exact Hlen].
Defined.

(** C2 at the failing input: a batch of two records, the second with a
    latest sample whose [Price] has no [Ohlc], on an engine without a key.
    The fallback call of the second record throws a [TypeError] outside
    any [try]: the resolver returns no decision list at all, for the first
    record either. The response parser does the same for every text
    without a parsed array, and for a parsed array that answers the first
    record and omits the second. *)
Theorem analyzeMultipleWithAI_returns_no_decisions
    (JSON_parse : string -> option Js.Value)
    (toUpperCase toLowerCase : string -> string)
    (buildMultiCurrencyPrompt : string -> list Currency.t -> Js.Result string)
    (fetch : string -> string -> Js.Result Response.t) :
  let batch :=
    [Sample.record "bid:solana:AAA" [Sample.flat 3 5 None];
     Sample.record "bid:solana:BBB" [Sample.no_ohlc]] in
  let resolved :=
    analyzeMultipleWithAI JSON_parse toUpperCase toLowerCase
      buildMultiCurrencyPrompt fetch (new_engine "low" None) batch in
  resolved = Js.Throw missing_ohlc
  ∧ (∀ ds, resolved ≠ Js.Ok ds)
  ∧ (∀ gptText, response_items JSON_parse gptText = None →
       parseMultiCurrencyResponse JSON_parse toUpperCase toLowerCase
         gptText batch = Js.Throw missing_ohlc)
  ∧ parseMultiCurrencyResponse
      (Sample.parse_as [Sample.entry "bid:solana:AAA" "HOLD"])
      Sample.toUpperCase Sample.toLowerCase (Js.Str "[entries]") batch
    = Js.Throw missing_ohlc.
Proof.
  intros batch resolved.
  assert (Hresolved : resolved = Js.Throw missing_ohlc) by reflexivity.
  split_and!; [done|by rewrite Hresolved| |reflexivity].
  intros gptText Hnone.
  by rewrite parseMultiCurrencyResponse_unparsed.
Qed.

(** C3, where it fails. When some record of the batch has a latest sample
    whose [Price] has no [Ohlc], the fallback call for it throws, and
    every path on which the resolver falls back throws with it: the
    absent key, the throwing prompt builder, the transport error, the HTTP
    error status, the body that is not JSON, the error the API reports,
    the missing response structure, the response text without a parsed
    array, and the parsed array that has no entry for the record. The
    exception leaves [analyzeMultipleWithAI], and the caller gets no
    decision for any record. *)
Theorem analyzeMultipleWithAI_raises
    (JSON_parse : string -> option Js.Value)
    (toUpperCase toLowerCase : string -> string)
    (buildMultiCurrencyPrompt : string -> list Currency.t -> Js.Result string)
    (fetch : string -> string -> Js.Result Response.t)
    (e : Engine.t) (cs : list Currency.t) (c : Currency.t) :
  c ∈ cs → carries_ohlc c = false →
  let resolved :=
    analyzeMultipleWithAI JSON_parse toUpperCase toLowerCase
      buildMultiCurrencyPrompt fetch e cs in
  match service_outcome buildMultiCurrencyPrompt fetch e cs with
  | ResponseText gptText =>
      match response_items JSON_parse gptText with
      | None => resolved = Js.Throw missing_ohlc
      | Some items =>
          (∀ item, item ∈ items →
             Js.get item "currencyId"
             ≠ Js.Ok (Js.Str (Currency.currencyId c))) →
          resolved = Js.Throw missing_ohlc
      end
  | _ => resolved = Js.Throw missing_ohlc
  end.
Proof.
  intros Hin Hc resolved. subst resolved.
  rewrite analyzeMultipleWithAI_by_outcome.
  destruct (service_outcome buildMultiCurrencyPrompt fetch e cs)
    as [| | | | | | |gptText]; try by eapply fallback_all_throws.
  destruct (response_items JSON_parse gptText) as [items|] eqn:Hitems.
  - intros Homitted. by eapply parseMultiCurrencyResponse_omitted_throws.
  - rewrite parseMultiCurrencyResponse_unparsed by done.
    by eapply fallback_all_throws.
Qed.

Lemma analyzeMultipleWithAI_raises_witness :
  analyzeMultipleWithAI (Sample.parse_as []) Sample.toUpperCase
    Sample.toLowerCase SampleCycle.no_prompt SampleCycle.unreachable_service
    (new_engine "low" (Some "key"))
    [Sample.record "bid:solana:AAA" [Sample.no_ohlc]]
  = Js.Throw missing_ohlc.
Proof.
  exact (analyzeMultipleWithAI_raises (Sample.parse_as [])
           Sample.toUpperCase Sample.toLowerCase SampleCycle.no_prompt
           SampleCycle.unreachable_service (new_engine "low" (Some "key"))
           [Sample.record "bid:solana:AAA" [Sample.no_ohlc]]
           (Sample.record "bid:solana:AAA" [Sample.no_ohlc])
           (list_elem_of_here _ _) eq_refl).
Defined.

(* ===================================================================== *)
(** ** The insertion-ordered map *)
(* ===================================================================== *)

Section JsMapFacts.

Context {V : Type}.
Implicit Types (m : JsMap.t V) (k : string) (v : V).

Lemma get_set_eq m k v : JsMap.get k (JsMap.set k v m) = Some v.
Proof.
  induction m as [|[k' v'] m IH]; simpl.
  - by rewrite String.eqb_refl.
  - destruct (String.eqb_spec k k') as [->|Hne]; simpl.
    + by rewrite String.eqb_refl.
    + destruct (String.eqb_spec k k'); [done|exact IH].
Qed.

Lemma get_Some_elem m k v : JsMap.get k m = Some v → (k, v) ∈ m.
Proof.
  induction m as [|[k' v'] m IH]; simpl; [done|].
  destruct (String.eqb_spec k k') as [->|Hne].
  - intros [= ->]. by left.
  - intros Hget. right. by apply IH.
Qed.

Lemma get_None_keys m k : JsMap.get k m = None → k ∉ JsMap.keys m.
Proof.
  induction m as [|[k' v'] m IH]; simpl; [intros _; apply not_elem_of_nil|].
  destruct (String.eqb_spec k k') as [->|Hne]; [done|].
  intros Hget. apply not_elem_of_cons. split; [done|by apply IH].
Qed.

Lemma keys_set_present m k v :
  is_Some (JsMap.get k m) → JsMap.keys (JsMap.set k v m) = JsMap.keys m.
Proof.
  induction m as [|[k' v'] m IH]; simpl; [by intros [? ?]|].
  destruct (String.eqb_spec k k') as [->|Hne]; simpl; [done|].
  intros Hsome. by rewrite (IH Hsome).
Qed.

Lemma keys_set_absent m k v :
  JsMap.get k m = None → JsMap.keys (JsMap.set k v m) = (JsMap.keys m ++ [k])%list.
Proof.
  induction m as [|[k' v'] m IH]; simpl; [done|].
  destruct (String.eqb_spec k k') as [->|Hne]; simpl; [done|].
  intros Hnone. by rewrite (IH Hnone).
Qed.

Lemma Forall_set (P : string * V → Prop) m k v :
  Forall P m → P (k, v) → Forall P (JsMap.set k v m).
Proof.
  intros Hm Hkv. induction Hm as [|[k' v'] m Hhead Htail IH]; simpl.
  - by constructor.
  - destruct (String.eqb k k'); by constructor.
Qed.

Lemma Forall_delete (P : string * V → Prop) m k :
  Forall P m → Forall P (JsMap.delete k m).
Proof.
  intros Hm. induction Hm as [|[k' v'] m Hhead Htail IH]; simpl; [done|].
  destruct (String.eqb k k'); [done|by constructor].
Qed.

Lemma keys_delete m k k' :
  k' ∈ JsMap.keys (JsMap.delete k m) ↔ k' ∈ JsMap.keys m ∧ k' ≠ k.
Proof.
  induction m as [|[k0 v0] m IH]; simpl.
  - split; [by intros ?%elem_of_nil|by intros [?%elem_of_nil _]].
  - destruct (String.eqb_spec k k0) as [->|Hne]; simpl.
    + rewrite IH, elem_of_cons. naive_solver.
    + rewrite !elem_of_cons, IH. naive_solver.
Qed.

Lemma delete_absent m k : k ∉ JsMap.keys m → JsMap.delete k m = m.
Proof.
  induction m as [|[k0 v0] m IH]; simpl; [done|].
  intros [Hne Hrest]%not_elem_of_cons.
  destruct (String.eqb_spec k k0); [done|]. by rewrite IH.
Qed.

Lemma NoDup_keys_delete m k :
  NoDup (JsMap.keys m) → NoDup (JsMap.keys (JsMap.delete k m)).
Proof.
  induction m as [|[k0 v0] m IH]; simpl; [done|].
  intros [Hfresh Hrest]%NoDup_cons.
  destruct (String.eqb_spec k k0); [by apply IH|].
  simpl. apply NoDup_cons. split; [|by apply IH].
  rewrite keys_delete. naive_solver.
Qed.

Lemma NoDup_keys_set m k v :
  NoDup (JsMap.keys m) → NoDup (JsMap.keys (JsMap.set k v m)).
Proof.
  intros Hm. destruct (JsMap.get k m) as [v0|] eqn:Hget.
  - by rewrite keys_set_present.
  - rewrite keys_set_absent by done.
    apply NoDup_app. split; [done|]. split; [|apply NoDup_singleton].
    intros k' Hin ->%list_elem_of_singleton.
    by apply (get_None_keys _ _ Hget).
Qed.

Lemma length_delete_present m k v :
  NoDup (JsMap.keys m) → JsMap.get k m = Some v →
  S (length (JsMap.delete k m)) = length m.
Proof.
  induction m as [|[k0 v0] m IH]; simpl; [done|].
  intros [Hfresh Hrest]%NoDup_cons.
  destruct (String.eqb_spec k k0) as [->|Hne].
  - intros _. by rewrite delete_absent.
  - intros Hget. simpl. by rewrite (IH Hrest Hget).
Qed.

Lemma length_keys m : length (JsMap.keys m) = length m.
Proof. apply length_map. Qed.

(** Deleting every key leaves the empty map. *)
Lemma delete_every_key (ks : list string) m :
  (∀ k, k ∈ JsMap.keys m → k ∈ ks) →
  foldl (fun acc k => JsMap.delete k acc) m ks = [].
Proof.
  revert m. induction ks as [|k ks IH]; intros m Hsub; simpl.
  - destruct m as [|[k0 v0] m]; [done|].
    exfalso. eapply not_elem_of_nil, (Hsub k0). by left.
  - apply IH. intros k' [Hin Hne]%keys_delete.
    apply Hsub in Hin. by apply elem_of_cons in Hin as [->|Hin].
Qed.

End JsMapFacts.

(* ===================================================================== *)
(** ** Entry price of a stored position *)
(* ===================================================================== *)

(** C9, as stated, fails: for a record with no samples and a response
    entry that says OPEN LONG, the response parser yields an [open]
    decision with entry price 0, and a fresh engine stores a position with
    that entry price. *)
Lemma empty_metrics_entry_counterexample :
  ∃ d,
    parseMultiCurrencyResponse
      (Sample.parse_as [Sample.entry "bid:solana:ADDR123" "OPEN LONG"])
      Sample.toUpperCase Sample.toLowerCase
      (Js.Str "[entries]") [Sample.record "bid:solana:ADDR123" []]
    = Js.Ok [d]
    ∧ Decision.decision d = open
    ∧ ¬ entry_positive_as_stated (new_engine "high" None) 1 d.
Proof.
  eexists. split; [vm_compute; reflexivity|]. split; [reflexivity|].
  intros Hpositive.
  specialize (Hpositive _ _ eq_refl). vm_compute in Hpositive.
  discriminate Hpositive.
Qed.

(** C9, amended. A decision that passes the capital guard is stored as a
    position under its parsed address with the decision's [entryPrice]
    unchanged, so the stored entry price is strictly positive exactly when
    the decision's is. *)
Theorem openPosition_stores_entryPrice (e : Engine.t) (now : Z)
    (aiDecision : Decision.t) :
  Js.ge (Engine.allocatedCapital e) (Engine.capital e * 0.9)%float = false →
  ∃ position e',
    openPosition e now aiDecision = (Some position, e')
    ∧ JsMap.get (parseCurrencyId (Decision.currencyId aiDecision)).2
        (Engine.positions e') = Some position
    ∧ Position.entryPrice position = Decision.entryPrice aiDecision
    ∧ Js.gt (Position.entryPrice position) 0
      = Js.gt (Decision.entryPrice aiDecision) 0.
Proof.
  intros Hguard. unfold openPosition. rewrite Hguard.
  destruct (parseCurrencyId (Decision.currencyId aiDecision))
    as [network address].
  eexists _, _. split; [reflexivity|]. simpl.
  split; [apply get_set_eq|done].
Qed.

Lemma openPosition_stores_entryPrice_witness :
  ∃ position e',
    openPosition (new_engine "low" None) 1
      (Sample.decide_on "bid:solana:ADDR123" open "long" 2.5)
    = (Some position, e')
    ∧ Position.entryPrice position = 2.5%float.
Proof.
  destruct (openPosition_stores_entryPrice (new_engine "low" None) 1
              (Sample.decide_on "bid:solana:ADDR123" open "long" 2.5)
              eq_refl)
    as (position & e' & Hopen & _ & Hentry & _).
  exists position, e'. split; [exact Hopen|exact Hentry].
Defined.

(* ===================================================================== *)
(** ** Liquidation *)
(* ===================================================================== *)

Lemma close_each_spec (bitqueryClient : option PriceClient)
    (snapshot : list Position.t) (e : Engine.t)
    (closedPositions : list Closed.t) (totalPnL : float) :
  close_each bitqueryClient snapshot e closedPositions totalPnL =
  let closed :=
    (closedPositions ++ map (liquidated bitqueryClient) snapshot)%list in
  ({| Summary.closedCount := length closed;
      Summary.totalPnL :=
        foldl (fun acc c => (acc + Closed.pnl c)%float) totalPnL
          (map (liquidated bitqueryClient) snapshot);
      Summary.positions := closed |},
   with_ledger e
     (foldl (fun acc k => JsMap.delete k acc) (Engine.positions e)
        (map Position.tokenAddress snapshot))
     (foldl (fun acc p => (acc - Position.size p)%float)
        (Engine.allocatedCapital e) snapshot)).
Proof.
  revert e closedPositions totalPnL.
  induction snapshot as [|position rest IH]; intros e closedPositions totalPnL.
  - simpl. rewrite app_nil_r. by destruct e.
  - simpl. rewrite IH. simpl. by rewrite <- app_assoc.
Qed.

Lemma keyed_keys (positions : JsMap.t Position.t) :
  keyed_by_address positions →
  map Position.tokenAddress (JsMap.values positions) = JsMap.keys positions.
Proof.
  induction 1 as [|[k p] m Hhead Htail IH]; simpl; [done|].
  simpl in Hhead. by rewrite Hhead, IH.
Qed.

(** C7. On an engine whose positions are stored under their own addresses
    (as [openPosition] stores them), [closeAllPositions] leaves no open
    position, counts as many closed positions as were open, closes each
    open position, in order, at the price the sweep settles on for it, and
    returns the sum of the realized P&L values of the closed positions;
    a position whose price lookup throws is closed at its entry price.
    The sweep is a total function: it has no failing case. *)
Theorem closeAllPositions_liquidates (e : Engine.t)
    (bitqueryClient : option PriceClient) :
  keyed_by_address (Engine.positions e) →
  let before := getOpenPositions e in
  let summary := (closeAllPositions e bitqueryClient).1 in
  let after := (closeAllPositions e bitqueryClient).2 in
  Engine.positions after = JsMap.empty
  ∧ Summary.closedCount summary = length before
  ∧ Summary.positions summary =
      map (fun p =>
             {| Closed.position := p;
                Closed.currentPrice := liquidation_price bitqueryClient p;
                Closed.pnl :=
                  realized_pnl p (liquidation_price bitqueryClient p) |})
          before
  ∧ Summary.totalPnL summary = sum_pnl (Summary.positions summary)
  ∧ (∀ client p err,
       bitqueryClient = Some client →
       client (Position.currencyId p) 1%Z = Js.Throw err →
       liquidation_price bitqueryClient p = Position.entryPrice p).
Proof.
  intros Hkeyed before summary after.
  assert (Hlookup : ∀ client p err,
            bitqueryClient = Some client →
            client (Position.currencyId p) 1%Z = Js.Throw err →
            liquidation_price bitqueryClient p = Position.entryPrice p).
  { intros client p err -> Hthrow. unfold liquidation_price.
    by rewrite Hthrow. }
  subst before summary after. unfold closeAllPositions.
  destruct (getOpenPositions e) as [|p ps] eqn:Hbefore.
  - simpl. split_and!; try done.
    unfold getOpenPositions, JsMap.values in Hbefore.
    by apply fmap_nil_inv in Hbefore.
  - rewrite close_each_spec. cbv zeta. rewrite <- Hbefore.
    cbn [fst snd app Summary.closedCount Summary.positions Summary.totalPnL].
    split_and!; try done.
    + cbn. unfold getOpenPositions.
      rewrite keyed_keys by done. by apply delete_every_key.
    + by rewrite length_map.
Qed.

Lemma closeAllPositions_liquidates_witness :
  Engine.positions
    (closeAllPositions Sample.full_engine (Some Sample.failing_client)).2
  = JsMap.empty
  ∧ Summary.closedCount
      (closeAllPositions Sample.full_engine (Some Sample.failing_client)).1
    = 3.
Proof.
  assert (Hkeyed : keyed_by_address (Engine.positions Sample.full_engine)).
  { repeat constructor. }
  destruct (closeAllPositions_liquidates Sample.full_engine
              (Some Sample.failing_client) Hkeyed)
    as (Hempty & Hcount & _).
  split; [exact Hempty|exact Hcount].
Defined.

(* ===================================================================== *)
(** ** Capital accounting *)
(* ===================================================================== *)

Lemma foldl_sizes (s : float) (ps : list Position.t) (k : nat) :
  Forall (fun p => Position.size p = s) ps →
  foldl (fun acc p => (acc + Position.size p)%float) (units k s) ps
  = units (k + length ps) s.
Proof.
  intros Hps. revert k. induction Hps as [|p ps Hp Hrest IH]; intros k; simpl.
  - by rewrite Nat.add_0_r.
  - rewrite Hp. change (units k s + s)%float with (units (S k) s).
    rewrite IH. f_equal. lia.
Qed.

Lemma sum_sizes_units (s : float) (positions : JsMap.t Position.t) :
  Forall (fun kp => Position.size kp.2 = s) positions →
  sum_sizes positions = units (length positions) s.
Proof.
  intros Hsizes. unfold sum_sizes, JsMap.values.
  change 0%float with (units 0 s). rewrite foldl_sizes.
  - by rewrite length_map.
  - by apply Forall_fmap.
Qed.

Section CapitalInvariant.

(** The risk parameters of the run, the size they give a position, and the
    number of opens the guard lets through. *)
Variable params : RiskParams.
Variable slots : nat.

Local Abbreviation size := (position_size params).
Local Abbreviation ledger_inv := (ledger_inv params slots).

(** What the two profiles of the table satisfy, by evaluation. *)
Hypothesis guard_at : ∀ n, n ≤ slots →
  Js.ge (units n size) (100000 * 0.9)%float = bool_decide (n = slots).
Hypothesis release : ∀ n, n < slots →
  (units (S n) size - size)%float = units n size.
Hypothesis in_range : ∀ n, n ≤ slots →
  Js.le 0 (units n size) = true ∧ Js.le (units n size) 100000 = true.
Hypothesis monotone : ∀ m n, m ≤ n → n ≤ slots →
  Js.le (units m size) (units n size) = true.

Lemma ledger_inv_new (riskProfile : string) (key : option string) :
  getRiskParameters riskProfile = params →
  ledger_inv true (new_engine riskProfile key).
Proof.
  intros Hparams. exists 0. simpl.
  split_and!; try done; try lia; constructor.
Qed.

Lemma ledger_inv_open (clean : bool) (e : Engine.t) (now : Z)
    (d : Decision.t) :
  ledger_inv clean e →
  ledger_inv (clean && negb (replaces e d)) (openPosition e now d).2.
Proof.
  intros (n & Hcap & Hparams & Halloc & Hn & Hlen & Hclean & Hnodup
            & Hkeyed & Hsizes).
  unfold replaces, openPosition.
  destruct (Js.ge (Engine.allocatedCapital e) (Engine.capital e * 0.9)%float)
    eqn:Hguard.
  - simpl. rewrite andb_true_r. by exists n.
  - rewrite Hcap, Halloc, (guard_at n Hn) in Hguard.
    apply bool_decide_eq_false in Hguard.
    destruct (parseCurrencyId (Decision.currencyId d)) as [network address].
    cbn [negb andb fst snd]. rewrite Hcap, Hparams, Halloc.
    change (100000 * maxPositionSize params)%float with size.
    change (units n size + size)%float with (units (S n) size).
    set (position := Position.Build_t _ _ _ _ _ _ _ _ _ _ _ _ _).
    exists (S n). cbn [with_ledger Engine.capital Engine.riskParams
                        Engine.allocatedCapital Engine.positions].
    split_and!; try done; try lia.
    + rewrite <- length_keys.
      destruct (JsMap.get address (Engine.positions e)) as [old|] eqn:Hget.
      * rewrite keys_set_present by done. rewrite length_keys. lia.
      * rewrite keys_set_absent by done.
        rewrite length_app, length_keys. simpl. lia.
    + intros [Hc Hfresh]%andb_true_iff.
      apply negb_true_iff, bool_decide_eq_false in Hfresh.
      destruct (JsMap.get address (Engine.positions e)) as [old|] eqn:Hget;
        [by destruct Hfresh|].
      rewrite <- length_keys, keys_set_absent by done.
      rewrite length_app, length_keys, (Hclean Hc). simpl. lia.
    + by apply NoDup_keys_set.
    + by apply Forall_set.
    + by apply Forall_set.
Qed.

Lemma ledger_inv_close (clean : bool) (e : Engine.t) (position : Position.t)
    (currentPrice : float) :
  ledger_inv clean e →
  JsMap.get (Position.tokenAddress position) (Engine.positions e)
    = Some position →
  ledger_inv clean (closePosition e position currentPrice).2.
Proof.
  intros (n & Hcap & Hparams & Halloc & Hn & Hlen & Hclean & Hnodup
            & Hkeyed & Hsizes) Hopen.
  pose proof (length_delete_present _ _ _ Hnodup Hopen) as Hdel.
  assert (Hsize : Position.size position = size).
  { apply get_Some_elem in Hopen.
    by apply (proj1 (Forall_forall _ _) Hsizes _ Hopen). }
  destruct n as [|n]; [lia|].
  exists n. cbn [closePosition snd with_ledger Engine.capital
                   Engine.riskParams Engine.allocatedCapital Engine.positions].
  rewrite Halloc, Hsize.
  split_and!; try done; try lia.
  - apply release. lia.
  - intros Hc. specialize (Hclean Hc). lia.
  - by apply NoDup_keys_delete.
  - by apply Forall_delete.
  - by apply Forall_delete.
Qed.

Lemma reachable_ledger_inv (riskProfile : string) (key : option string)
    (clean : bool) (e : Engine.t) :
  getRiskParameters riskProfile = params →
  reachable riskProfile key clean e → ledger_inv clean e.
Proof.
  intros Hparams. induction 1 as [|clean e now d _ IH|clean e p price _ IH Hp].
  - by apply ledger_inv_new.
  - by apply ledger_inv_open.
  - by apply ledger_inv_close.
Qed.

Lemma ledger_inv_capital (clean : bool) (e : Engine.t) :
  ledger_inv clean e →
  Js.le 0 (Engine.allocatedCapital e) = true
  ∧ Js.le (Engine.allocatedCapital e) (Engine.capital e) = true
  ∧ Js.le (sum_sizes (Engine.positions e)) (Engine.allocatedCapital e) = true
  ∧ (clean = true →
     Engine.allocatedCapital e = sum_sizes (Engine.positions e))
  ∧ keyed_by_address (Engine.positions e).
Proof.
  intros (n & Hcap & Hparams & Halloc & Hn & Hlen & Hclean & Hnodup
            & Hkeyed & Hsizes).
  rewrite Hcap, Halloc, (sum_sizes_units size) by done.
  destruct (in_range n Hn) as [Hlow Hhigh].
  split_and!; try done.
  - by apply monotone.
  - intros Hc. by rewrite (Hclean Hc).
Qed.

End CapitalInvariant.

(** A tag that is not a name of [Object.prototype] takes one of the two
    profiles of the table. *)
Lemma getRiskParameters_cases (riskProfile : string) :
  Js.inherited riskProfile = false →
  getRiskParameters riskProfile = profile_low
  ∨ getRiskParameters riskProfile = profile_high.
Proof.
  intros Hown. unfold getRiskParameters. rewrite Hown.
  destruct (String.eqb riskProfile "low"); [by left|].
  destruct (String.eqb riskProfile "high"); [by right|by left].
Qed.

(** Every position of a trace is stored under its own address, whatever
    the tag of the engine. *)
Lemma reachable_keyed (riskProfile : string) (key : option string)
    (clean : bool) (e : Engine.t) :
  reachable riskProfile key clean e → keyed_by_address (Engine.positions e).
Proof.
  induction 1 as [|clean e now d _ IH|clean e p price _ IH Hp].
  - constructor.
  - unfold openPosition. destruct (Js.ge _ _); [done|].
    destruct (parseCurrencyId (Decision.currencyId d)) as [network address].
    simpl. by apply Forall_set.
  - simpl. by apply Forall_delete.
Qed.

(** Case analysis on a number of opens bounded by a hypothesis in the
    context; each case is settled by evaluation. *)
Ltac level_case :=
  first [ solve [exfalso; lia]
        | vm_compute; reflexivity
        | split; vm_compute; reflexivity ].

Ltac each_level n :=
  do 10 (destruct n as [|n]; [level_case|]); exfalso; lia.

Lemma low_guard_at (n : nat) :
  n ≤ 9 →
  Js.ge (units n (100000 * maxPositionSize profile_low)%float)
    (100000 * 0.9)%float = bool_decide (n = 9).
Proof. intros Hn. each_level n. Qed.

Lemma low_release (n : nat) :
  n < 9 →
  (units (S n) (100000 * maxPositionSize profile_low)%float
   - 100000 * maxPositionSize profile_low)%float
  = units n (100000 * maxPositionSize profile_low)%float.
Proof. intros Hn. each_level n. Qed.

Lemma low_in_range (n : nat) :
  n ≤ 9 →
  Js.le 0 (units n (100000 * maxPositionSize profile_low)%float) = true
  ∧ Js.le (units n (100000 * maxPositionSize profile_low)%float) 100000
    = true.
Proof. intros Hn. each_level n. Qed.

Lemma low_monotone (m n : nat) :
  m ≤ n → n ≤ 9 →
  Js.le (units m (100000 * maxPositionSize profile_low)%float)
    (units n (100000 * maxPositionSize profile_low)%float) = true.
Proof.
  intros Hmn Hn.
  do 10 (destruct n as [|n]; [each_level m|]). lia.
Qed.

Lemma high_guard_at (n : nat) :
  n ≤ 3 →
  Js.ge (units n (100000 * maxPositionSize profile_high)%float)
    (100000 * 0.9)%float = bool_decide (n = 3).
Proof. intros Hn. each_level n. Qed.

Lemma high_release (n : nat) :
  n < 3 →
  (units (S n) (100000 * maxPositionSize profile_high)%float
   - 100000 * maxPositionSize profile_high)%float
  = units n (100000 * maxPositionSize profile_high)%float.
Proof. intros Hn. each_level n. Qed.

Lemma high_in_range (n : nat) :
  n ≤ 3 →
  Js.le 0 (units n (100000 * maxPositionSize profile_high)%float) = true
  ∧ Js.le (units n (100000 * maxPositionSize profile_high)%float) 100000
    = true.
Proof. intros Hn. each_level n. Qed.

Lemma high_monotone (m n : nat) :
  m ≤ n → n ≤ 3 →
  Js.le (units m (100000 * maxPositionSize profile_high)%float)
    (units n (100000 * maxPositionSize profile_high)%float) = true.
Proof.
  intros Hmn Hn.
  do 10 (destruct n as [|n]; [each_level m|]). lia.
Qed.

(** Capital accounting over every trace of opens and closes of an engine
    whose tag is not a name of [Object.prototype]: allocated capital stays
    between zero and the capital, is never below the sum of the sizes of
    the open positions, and is that sum as long as no open has replaced an
    open position. *)
Lemma capital_accounting (riskProfile : string) (key : option string)
    (clean : bool) (e : Engine.t) :
  Js.inherited riskProfile = false →
  reachable riskProfile key clean e →
  Js.le 0 (Engine.allocatedCapital e) = true
  ∧ Js.le (Engine.allocatedCapital e) (Engine.capital e) = true
  ∧ Js.le (sum_sizes (Engine.positions e)) (Engine.allocatedCapital e) = true
  ∧ (clean = true →
     Engine.allocatedCapital e = sum_sizes (Engine.positions e))
  ∧ keyed_by_address (Engine.positions e).
Proof.
  intros Hown Hreach.
  destruct (getRiskParameters_cases riskProfile Hown) as [Hlow|Hhigh].
  - eapply (ledger_inv_capital profile_low 9 low_in_range low_monotone).
    eapply (reachable_ledger_inv profile_low 9 low_guard_at low_release);
      eauto.
  - eapply (ledger_inv_capital profile_high 3 high_in_range high_monotone).
    eapply (reachable_ledger_inv profile_high 3 high_guard_at high_release);
      eauto.
Qed.

(** C1 at the failing input: a high-risk engine on which the same
    identifier is opened twice. The second open replaces the stored
    position and adds its size again: one position of size 30000 is open,
    the allocated capital is 60000, and the sum the specification asks for
    is 30000. The liquidation sweep then empties the map and leaves 30000
    allocated. *)
Theorem reopened_capital_leak :
  reachable "high" None false Sample.reopened_engine
  ∧ length (getOpenPositions Sample.reopened_engine) = 1
  ∧ sum_sizes (Engine.positions Sample.reopened_engine) = 30000%float
  ∧ Engine.allocatedCapital Sample.reopened_engine = 60000%float
  ∧ ¬ capital_invariant_as_stated Sample.reopened_engine
  ∧ Engine.positions (closeAllPositions Sample.reopened_engine None).2
    = JsMap.empty
  ∧ Engine.allocatedCapital (closeAllPositions Sample.reopened_engine None).2
    = 30000%float.
Proof.
  split_and!; try reflexivity.
  - exact (reach_open "high" None _ _ 2
             (Sample.decide_on "bid:solana:AAA" open "long" 2)
             (reach_open "high" None _ _ 1
                (Sample.decide_on "bid:solana:AAA" open "long" 2)
                (reach_new "high" None))).
  - intros (_ & _ & Hsum). vm_compute in Hsum. discriminate Hsum.
Qed.

(* ===================================================================== *)
(** ** Scenarios of the specification *)
(* ===================================================================== *)

(** Three records, a response that answers the first and the third: the
    second decision is the fallback of the second record, and the list
    keeps the order of the batch. *)
Example partial_response_scenario :
  let records :=
    [Sample.record "bid:solana:AAA" [Sample.flat 3 5 None];
     Sample.record "bid:solana:BBB" [Sample.flat 5 3 None];
     Sample.record "bid:solana:CCC" []] in
  let response :=
    [Sample.entry "bid:solana:CCC" "hold";
     Sample.entry "bid:solana:AAA" "open short"] in
  ∃ d1 d2 d3,
    parseMultiCurrencyResponse (Sample.parse_as response)
      Sample.toUpperCase Sample.toLowerCase
      (Js.Str "Decisions: [entries]") records = Js.Ok [d1; d2; d3]
    ∧ (Decision.decision d1, Decision.positionType d1,
       Decision.entryPrice d1) = (open, "short", 5%float)
    ∧ fallback_of (Sample.record "bid:solana:BBB" [Sample.flat 5 3 None])
      = Js.Ok d2
    ∧ (Decision.decision d2, Decision.positionType d2) = (open, "short")
    ∧ (Decision.decision d3, Decision.entryPrice d3) = (hold, 0%float).
Proof.
  eexists _, _, _. split; [vm_compute; reflexivity|]. by vm_compute.
Qed.

(** A short position entered at 100 and closed at 115 loses what the long
    position of the same size gains. *)
Example short_position_scenario :
  let short :=
    {| Position.id := "pos_2";
       Position.currencyId := "bid:solana:ADDR123";
       Position.tokenAddress := "ADDR123";
       Position.network := "solana";
       Position.type := "short";
       Position.entryPrice := 100;
       Position.size := 30000;
       Position.timestamp := 2;
       Position.stopLoss := 0.90;
       Position.takeProfit := 1.15;
       Position.confidence := 0.7;
       Position.reasoning := Js.Str "Bearish signals";
       Position.expectedProfit := 4500 |} in
  realized_pnl short 115 = (-4500)%float
  ∧ realized_pnl (Sample.long_position 30000 100) 115 = 4500%float.
Proof. by vm_compute. Qed.

(* ===================================================================== *)
(** ** The ledger under sequences of decisions *)
(* ===================================================================== *)

Lemma delete_set_absent {V : Type} (m : JsMap.t V) (k : string) (v : V) :
  JsMap.get k m = None → JsMap.delete k (JsMap.set k v m) = m.
Proof.
  induction m as [|[k0 v0] m IH]; simpl.
  - by rewrite String.eqb_refl.
  - destruct (String.eqb_spec k k0) as [->|Hne]; [done|].
    intros Hnone. simpl. destruct (String.eqb_spec k k0); [done|].
    by rewrite (IH Hnone).
Qed.

Lemma with_ledger_same (e : Engine.t) :
  with_ledger e (Engine.positions e) (Engine.allocatedCapital e) = e.
Proof. by destruct e. Qed.

(** The facts of the two profiles, by the tag the engine is built with. *)
Lemma profile_facts (riskProfile : string) :
  Js.inherited riskProfile = false →
  let size := position_size (getRiskParameters riskProfile) in
  let slots := open_slots riskProfile in
  (∀ n, n ≤ slots →
     Js.ge (units n size) (100000 * 0.9)%float = bool_decide (n = slots))
  ∧ (∀ n, n < slots → (units (S n) size - size)%float = units n size)
  ∧ (∀ n, n ≤ slots →
       Js.le 0 (units n size) = true ∧ Js.le (units n size) 100000 = true)
  ∧ (∀ m n, m ≤ n → n ≤ slots →
       Js.le (units m size) (units n size) = true).
Proof.
  intros Hown. unfold getRiskParameters, open_slots. rewrite Hown.
  destruct (String.eqb riskProfile "low");
    [|destruct (String.eqb riskProfile "high")]; cbv zeta; split_and!.
  all: first [ exact low_guard_at | exact low_release | exact low_in_range
             | exact low_monotone | exact high_guard_at | exact high_release
             | exact high_in_range | exact high_monotone ].
Qed.

Lemma reachable_inv (riskProfile : string) (key : option string)
    (clean : bool) (e : Engine.t) :
  Js.inherited riskProfile = false →
  reachable riskProfile key clean e →
  ledger_inv (getRiskParameters riskProfile) (open_slots riskProfile) clean e.
Proof.
  intros Hown Hreach.
  destruct (profile_facts riskProfile Hown) as (Hguard & Hrelease & _ & _).
  by eapply (reachable_ledger_inv _ _ Hguard Hrelease).
Qed.

(** The engine [executeDecision] leaves, by the action of the decision. *)
Lemma executeDecision_engine (toFixed : float -> nat -> string)
    (e : Engine.t) (now : Z) (d : Decision.t) :
  (executeDecision toFixed e now d).2 =
  match Decision.decision d with
  | open => (openPosition e now d).2
  | close =>
      match JsMap.get (parseCurrencyId (Decision.currencyId d)).2
              (Engine.positions e) with
      | Some position =>
          (closePosition e position (Decision.entryPrice d)).2
      | None => e
      end
  | hold => e
  end.
Proof.
  unfold executeDecision.
  destruct (parseCurrencyId (Decision.currencyId d)) as [network address].
  destruct (Decision.decision d); simpl.
  - by destruct (openPosition e now d) as [[position|] e1].
  - by destruct (JsMap.get address (Engine.positions e)).
  - done.
Qed.

Lemma executeDecision_reachable (toFixed : float -> nat -> string)
    (riskProfile : string) (key : option string) (clean : bool)
    (e : Engine.t) (now : Z) (d : Decision.t) :
  reachable riskProfile key clean e →
  ∃ clean', reachable riskProfile key clean'
              (executeDecision toFixed e now d).2.
Proof.
  intros Hreach. rewrite executeDecision_engine.
  destruct (Decision.decision d).
  - eexists. by apply reach_open.
  - destruct (JsMap.get _ (Engine.positions e)) as [position|] eqn:Hget;
      [|by exists clean].
    exists clean. apply reach_close; [done|].
    pose proof (reachable_keyed _ _ _ _ Hreach) as Hkeyed.
    pose proof (get_Some_elem _ _ _ Hget) as Hin.
    pose proof (proj1 (Forall_forall _ _) Hkeyed _ Hin) as Haddr.
    simpl in Haddr. by rewrite Haddr.
  - by exists clean.
Qed.

(** X1. [executeDecision] keeps the capital accounting of the ledger: on
    an engine reached by opens and closes from a fresh one whose tag is
    not a name of [Object.prototype], whatever the decision, the engine it
    leaves is again such an engine, with the same capital and risk
    parameters, allocated capital between zero and the capital and not
    below the sum of the open sizes, and every position stored under its
    own address. *)
Theorem executeDecision_keeps_accounting (toFixed : float -> nat -> string)
    (riskProfile : string) (key : option string) (clean : bool)
    (e : Engine.t) (now : Z) (d : Decision.t) :
  Js.inherited riskProfile = false →
  reachable riskProfile key clean e →
  let e' := (executeDecision toFixed e now d).2 in
  (∃ clean', reachable riskProfile key clean' e')
  ∧ Engine.capital e' = Engine.capital e
  ∧ Engine.riskParams e' = Engine.riskParams e
  ∧ Js.le 0 (Engine.allocatedCapital e') = true
  ∧ Js.le (Engine.allocatedCapital e') (Engine.capital e') = true
  ∧ Js.le (sum_sizes (Engine.positions e')) (Engine.allocatedCapital e')
    = true
  ∧ keyed_by_address (Engine.positions e').
Proof.
  intros Hown Hreach e'.
  destruct (executeDecision_reachable toFixed _ _ _ _ now d Hreach)
    as [clean' Hreach'].
  fold e' in Hreach'.
  destruct (capital_accounting _ _ _ _ Hown Hreach')
    as (Hlow & Hhigh & Hsum & _ & Hkeyed).
  pose proof (reachable_inv _ _ _ _ Hown Hreach)
    as (n & Hcap & Hparams & _).
  pose proof (reachable_inv _ _ _ _ Hown Hreach')
    as (n' & Hcap' & Hparams' & _).
  split_and!; try done; [by eexists|congruence|congruence].
Qed.

Lemma reachable_full_engine :
  reachable "high" None true Sample.full_engine.
Proof.
  exact (reach_open "high" None _ _ 3
           (Sample.decide_on "bid:solana:CCC" open "long" 5)
           (reach_open "high" None _ _ 2
              (Sample.decide_on "bid:solana:BBB" open "short" 3)
              (reach_open "high" None _ _ 1
                 (Sample.decide_on "bid:solana:AAA" open "long" 2)
                 (reach_new "high" None)))).
Qed.

Lemma executeDecision_keeps_accounting_witness :
  Js.le (Engine.allocatedCapital
           (executeDecision Sample.toFixed Sample.full_engine 9
              (Sample.decide_on "bid:solana:BBB" close "short" 4)).2)
        100000 = true.
Proof.
  destruct (executeDecision_keeps_accounting Sample.toFixed "high" None true
              Sample.full_engine 9
              (Sample.decide_on "bid:solana:BBB" close "short" 4)
              eq_refl reachable_full_engine)
    as (_ & _ & _ & _ & Hhigh & _).
  exact Hhigh.
Defined.

(** X2. The capital guard bounds the book: an engine reached from a fresh
    one whose tag is not a name of [Object.prototype] holds at most nine
    open positions (three on the ["high"] profile), each of size 10000
    (30000 on the ["high"] profile). *)
Theorem open_positions_bounded (riskProfile : string) (key : option string)
    (clean : bool) (e : Engine.t) :
  Js.inherited riskProfile = false →
  reachable riskProfile key clean e →
  length (getOpenPositions e)
    ≤ (if String.eqb riskProfile "high" then 3 else 9)
  ∧ Forall (fun position =>
              Position.size position
              = if String.eqb riskProfile "high" then 30000%float
                else 10000%float)
           (getOpenPositions e).
Proof.
  intros Hown Hreach.
  pose proof (reachable_inv _ _ _ _ Hown Hreach)
    as (n & _ & _ & _ & Hn & Hlen & _ & _ & _ & Hsizes).
  unfold getOpenPositions, JsMap.values.
  rewrite length_map.
  revert Hn Hsizes. unfold open_slots, getRiskParameters. rewrite Hown.
  destruct (String.eqb_spec riskProfile "low") as [->|Hlow]; simpl.
  - intros Hn Hsizes. split; [lia|]. apply Forall_fmap. exact Hsizes.
  - destruct (String.eqb riskProfile "high"); intros Hn Hsizes;
      (split; [lia|]); apply Forall_fmap; exact Hsizes.
Qed.

Lemma open_positions_bounded_witness :
  length (getOpenPositions Sample.full_engine) ≤ 3.
Proof.
  destruct (open_positions_bounded "high" None true Sample.full_engine
              eq_refl reachable_full_engine) as [Hbound _].
  exact Hbound.
Defined.

(** X3. Opening and closing compose to the identity: on an engine reached
    from a fresh one whose tag is not a name of [Object.prototype], when
    the guard lets the open through and the parsed address holds no
    position, executing an [open] decision and then a [close] decision for
    the same identifier gives back the engine the pair started from
    (positions and allocated capital included). *)
Theorem open_then_close_restores (toFixed : float -> nat -> string)
    (riskProfile : string) (key : option string) (clean : bool)
    (e : Engine.t) (now now' : Z) (d d' : Decision.t) :
  Js.inherited riskProfile = false →
  reachable riskProfile key clean e →
  Js.ge (Engine.allocatedCapital e) (Engine.capital e * 0.9)%float = false →
  JsMap.get (parseCurrencyId (Decision.currencyId d)).2 (Engine.positions e)
    = None →
  Decision.decision d = open →
  Decision.decision d' = close →
  Decision.currencyId d' = Decision.currencyId d →
  (executeDecision toFixed (executeDecision toFixed e now d).2 now' d').2 = e.
Proof.
  intros Hown Hreach Hguard Hfree Hopen Hclose Hsame.
  pose proof (reachable_inv _ _ _ _ Hown Hreach)
    as (n & Hcap & Hparams & Halloc & Hn & _).
  destruct (profile_facts riskProfile Hown)
    as (Hguard_at & Hrelease & _ & _).
  cbv zeta in Hguard_at, Hrelease.
  assert (Hlt : n < open_slots riskProfile).
  { rewrite Hcap, Halloc, (Hguard_at n Hn) in Hguard.
    apply bool_decide_eq_false in Hguard. lia. }
  rewrite !executeDecision_engine, Hopen, Hclose, Hsame.
  unfold openPosition. rewrite Hguard.
  destruct (parseCurrencyId (Decision.currencyId d)) as [network address].
  cbn [fst snd with_ledger Engine.positions] in *.
  rewrite get_set_eq.
  cbn [closePosition snd with_ledger Engine.positions Engine.capital
       Engine.allocatedCapital Engine.riskParams Position.tokenAddress
       Position.size Engine.riskProfile Engine.geminiApiKey].
  rewrite delete_set_absent by done.
  rewrite Hcap, Hparams, Halloc.
  change (100000 * maxPositionSize (getRiskParameters riskProfile))%float
    with (position_size (getRiskParameters riskProfile)).
  change (units n ?s + ?s)%float with (units (S n) s).
  rewrite (Hrelease n Hlt), <- Halloc.
  clear. by destruct e.
Qed.

Lemma open_then_close_restores_witness :
  let e := new_engine "low" None in
  (executeDecision Sample.toFixed
     (executeDecision Sample.toFixed e 1
        (Sample.decide_on "bid:solana:AAA" open "long" 2)).2 2
     (Sample.decide_on "bid:solana:AAA" close "long" 3)).2 = e.
Proof.
  exact (open_then_close_restores Sample.toFixed "low" None true
           (new_engine "low" None) 1 2
           (Sample.decide_on "bid:solana:AAA" open "long" 2)
           (Sample.decide_on "bid:solana:AAA" close "long" 3)
           eq_refl (reach_new "low" None)
           eq_refl eq_refl eq_refl eq_refl eq_refl).
Defined.

Lemma foldl_release (s : float) (slots : nat) (ps : list Position.t)
    (k : nat) :
  (∀ n, n < slots → (units (S n) s - s)%float = units n s) →
  Forall (fun p => Position.size p = s) ps →
  k + length ps ≤ slots →
  foldl (fun acc p => (acc - Position.size p)%float)
    (units (k + length ps) s) ps = units k s.
Proof.
  intros Hrelease Hps. revert k.
  induction Hps as [|p ps Hp Hrest IH]; intros k Hk;
    cbn [foldl length] in *.
  - by rewrite Nat.add_0_r.
  - rewrite Hp. replace (k + S (length ps)) with (S (k + length ps)) by lia.
    rewrite Hrelease by lia. apply IH. lia.
Qed.

(** X4. The liquidation sweep gives the capital back: on an engine reached
    from a fresh one whose tag is not a name of [Object.prototype] it
    leaves no open position and an allocated capital between zero and the
    one before, which is exactly zero when no open has replaced an open
    position; a second sweep then closes nothing and changes nothing. *)
Theorem closeAllPositions_releases_capital (riskProfile : string)
    (key : option string) (clean : bool) (e : Engine.t)
    (bitqueryClient bitqueryClient' : option PriceClient) :
  Js.inherited riskProfile = false →
  reachable riskProfile key clean e →
  let e' := (closeAllPositions e bitqueryClient).2 in
  Engine.positions e' = JsMap.empty
  ∧ Js.le 0 (Engine.allocatedCapital e') = true
  ∧ Js.le (Engine.allocatedCapital e') (Engine.allocatedCapital e) = true
  ∧ (clean = true → Engine.allocatedCapital e' = 0%float)
  ∧ closeAllPositions e' bitqueryClient'
    = ({| Summary.closedCount := 0;
          Summary.totalPnL := 0;
          Summary.positions := [] |}, e').
Proof.
  intros Hown Hreach e'.
  pose proof (reachable_inv _ _ _ _ Hown Hreach)
    as (n & Hcap & Hparams & Halloc & Hn & Hlen & Hclean & Hnodup
          & Hkeyed & Hsizes).
  destruct (profile_facts riskProfile Hown)
    as (_ & Hrelease & Hrange & Hmono).
  cbv zeta in Hrelease, Hrange, Hmono.
  set (size := position_size (getRiskParameters riskProfile)) in *.
  set (len := length (Engine.positions e)) in *.
  assert (Hafter : Engine.positions e' = JsMap.empty
                   ∧ Engine.allocatedCapital e' = units (n - len) size).
  { subst e'. unfold closeAllPositions.
    destruct (getOpenPositions e) as [|p ps] eqn:Hbefore.
    - unfold getOpenPositions, JsMap.values in Hbefore.
      apply fmap_nil_inv in Hbefore. simpl. split; [done|].
      subst len. rewrite Hbefore, Halloc. simpl. f_equal. lia.
    - rewrite close_each_spec, <- Hbefore. cbv zeta. cbn [snd].
      cbn [with_ledger Engine.positions Engine.allocatedCapital].
      split.
      + unfold getOpenPositions. rewrite keyed_keys by done.
        by apply delete_every_key.
      + rewrite Halloc. replace n with ((n - len) + len) at 1 by lia.
        unfold getOpenPositions, JsMap.values.
        replace len with (length (map snd (Engine.positions e)))
          by (subst len; apply length_map).
        apply (foldl_release size (open_slots riskProfile)); [done| |].
        * by apply Forall_fmap.
        * rewrite length_map. lia. }
  destruct Hafter as [Hempty Halloc'].
  split_and!.
  - done.
  - rewrite Halloc'. apply Hrange. lia.
  - rewrite Halloc', Halloc. apply Hmono; lia.
  - intros Hc. rewrite Halloc', (Hclean Hc). by rewrite Nat.sub_diag.
  - unfold closeAllPositions, getOpenPositions. by rewrite Hempty.
Qed.

Lemma closeAllPositions_releases_capital_witness :
  Engine.allocatedCapital
    (closeAllPositions Sample.full_engine (Some Sample.failing_client)).2
  = 0%float.
Proof.
  destruct (closeAllPositions_releases_capital "high" None true
              Sample.full_engine (Some Sample.failing_client) None
              eq_refl reachable_full_engine)
    as (_ & _ & _ & Hzero & _).
  exact (Hzero eq_refl).
Defined.

(* ===================================================================== *)
(** ** Identifiers and response texts *)
(* ===================================================================== *)

Lemma split_without (sep : ascii) (s : string) :
  Js.count_char sep s = 0 → Js.split sep s = [s].
Proof.
  induction s as [|c rest IH]; simpl; [done|].
  destruct (Ascii.eqb c sep); [done|]. intros Hrest.
  by rewrite (IH Hrest).
Qed.

Lemma split_append (sep : ascii) (a b : string) :
  Js.count_char sep a = 0 →
  Js.split sep (a +:+ String sep b) = a :: Js.split sep b.
Proof.
  induction a as [|c rest IH]; simpl.
  - intros _. by rewrite Ascii.eqb_refl.
  - destruct (Ascii.eqb c sep); [done|]. intros Hrest.
    by rewrite (IH Hrest).
Qed.

Lemma split_append_colon (a b : string) :
  Js.count_char Js.colon a = 0 →
  Js.split Js.colon (a +:+ ":" +:+ b) = a :: Js.split Js.colon b.
Proof. exact (split_append Js.colon a b). Qed.

(** X5. The identifier parser inverts the composition of an identifier:
    for a prefix, network and address that hold no colon,
    [prefix:network:address] parses to the network and the address, and
    [prefix:address] to ["ethereum"] and the address; an identifier with
    three colons or more, or with none, is returned whole under
    ["unknown"]. *)
Theorem parseCurrencyId_round_trip (prefix network address : string) :
  Js.count_char Js.colon prefix = 0 →
  Js.count_char Js.colon network = 0 →
  Js.count_char Js.colon address = 0 →
  parseCurrencyId (prefix +:+ ":" +:+ network +:+ ":" +:+ address)
  = (network, address)
  ∧ parseCurrencyId (prefix +:+ ":" +:+ address) = ("ethereum", address)
  ∧ parseCurrencyId address = ("unknown", address)
  ∧ (∀ currencyId, 3 ≤ Js.count_char Js.colon currencyId →
       parseCurrencyId currencyId = ("unknown", currencyId)).
Proof.
  intros Hprefix Hnetwork Haddress. unfold parseCurrencyId.
  split_and!.
  - by rewrite !split_append_colon, split_without.
  - by rewrite split_append_colon, split_without.
  - by rewrite split_without.
  - intros currencyId Hcolons.
    pose proof (length_split Js.colon currencyId) as Hlen.
    destruct (Js.split Js.colon currencyId) as [|p0 [|p1 [|p2 [|p3 rest]]]];
      simpl in Hlen; try done; lia.
Qed.

Lemma parseCurrencyId_round_trip_witness :
  parseCurrencyId ("bid" +:+ ":" +:+ "solana" +:+ ":" +:+ "ADDR123")
  = ("solana", "ADDR123").
Proof.
  destruct (parseCurrencyId_round_trip "bid" "solana" "ADDR123"
              eq_refl eq_refl eq_refl) as [Hparse _].
  exact Hparse.
Defined.

Lemma from_first_append (c : ascii) (pre rest : string) :
  Js.count_char c pre = 0 →
  Js.from_first c (pre +:+ String c rest) = Some (String c rest).
Proof.
  induction pre as [|d pre IH]; simpl.
  - intros _. by rewrite Ascii.eqb_refl.
  - destruct (Ascii.eqb d c); [done|]. exact IH.
Qed.

Lemma upto_last_without (c : ascii) (s : string) :
  Js.count_char c s = 0 → Js.upto_last c s = None.
Proof.
  induction s as [|d s IH]; simpl; [done|].
  destruct (Ascii.eqb d c); [done|]. intros Hs. by rewrite (IH Hs).
Qed.

Lemma upto_last_append (c : ascii) (body post : string) :
  Js.count_char c post = 0 →
  Js.upto_last c (body +:+ String c post) = Some (body +:+ String c "").
Proof.
  intros Hpost. induction body as [|d body IH]; simpl.
  - by rewrite (upto_last_without c post Hpost), Ascii.eqb_refl.
  - by rewrite IH.
Qed.

Lemma match_json_array_surrounded (pre body post : string) :
  Js.count_char "["%char pre = 0 →
  Js.count_char "]"%char post = 0 →
  Js.match_json_array (pre +:+ "[" +:+ body +:+ "]" +:+ post)
  = Some ("[" +:+ body +:+ "]").
Proof.
  intros Hpre Hpost. unfold Js.match_json_array.
  change ("[" +:+ ?s) with (String "["%char s).
  change ("]" +:+ post) with (String "]"%char post).
  rewrite from_first_append by done.
  by rewrite upto_last_append.
Qed.

(** X6. The response parser ignores prose around the array: a text made of
    a lead-in without an opening bracket, a bracketed array and a trailer
    without a closing bracket gives what the bracketed array alone gives;
    a text with no closing bracket after its first opening bracket, or
    with no opening bracket, gives the fallback of the batch. *)
Theorem parseMultiCurrencyResponse_ignores_prose
    (JSON_parse : string -> option Js.Value)
    (toUpperCase toLowerCase : string -> string) (pre body post : string)
    (cs : list Currency.t) :
  Js.count_char "["%char pre = 0 →
  Js.count_char "]"%char post = 0 →
  parseMultiCurrencyResponse JSON_parse toUpperCase toLowerCase
    (Js.Str (pre +:+ "[" +:+ body +:+ "]" +:+ post)) cs
  = parseMultiCurrencyResponse JSON_parse toUpperCase toLowerCase
      (Js.Str ("[" +:+ body +:+ "]")) cs
  ∧ parseMultiCurrencyResponse JSON_parse toUpperCase toLowerCase
      (Js.Str (pre +:+ "[" +:+ post)) cs
    = fallback_all cs
  ∧ parseMultiCurrencyResponse JSON_parse toUpperCase toLowerCase
      (Js.Str pre) cs
    = fallback_all cs.
Proof.
  intros Hpre Hpost.
  pose proof (match_json_array_surrounded pre body post Hpre Hpost) as Hwide.
  assert (Hbare : Js.match_json_array ("[" +:+ body +:+ "]")
                  = Some ("[" +:+ body +:+ "]")).
  { exact (match_json_array_surrounded "" body "" eq_refl eq_refl). }
  split_and!.
  - unfold parseMultiCurrencyResponse, parse_response_body.
    by rewrite Hwide, Hbare.
  - apply parseMultiCurrencyResponse_unparsed. unfold response_items.
    unfold Js.match_json_array.
    change ("[" +:+ post) with (String "["%char post).
    rewrite from_first_append by done.
    by rewrite upto_last_without.
  - apply parseMultiCurrencyResponse_unparsed. unfold response_items.
    unfold Js.match_json_array.
    assert (Hnone : Js.from_first "["%char pre = None).
    { clear -Hpre. induction pre as [|d pre IH]; simpl in *; [done|].
      destruct (Ascii.eqb d "["); [done|]. by apply IH. }
    by rewrite Hnone.
Qed.

Lemma parseMultiCurrencyResponse_ignores_prose_witness :
  parseMultiCurrencyResponse
    (Sample.parse_as [Sample.entry "bid:solana:AAA" "HOLD"])
    Sample.toUpperCase Sample.toLowerCase
    (Js.Str ("Here you go: " +:+ "[" +:+ "entries" +:+ "]" +:+ " Done."))
    [Sample.record "bid:solana:AAA" []]
  = parseMultiCurrencyResponse
      (Sample.parse_as [Sample.entry "bid:solana:AAA" "HOLD"])
      Sample.toUpperCase Sample.toLowerCase
      (Js.Str ("[" +:+ "entries" +:+ "]"))
      [Sample.record "bid:solana:AAA" []].
Proof.
  destruct (parseMultiCurrencyResponse_ignores_prose
              (Sample.parse_as [Sample.entry "bid:solana:AAA" "HOLD"])
              Sample.toUpperCase Sample.toLowerCase
              "Here you go: " "entries" " Done."
              [Sample.record "bid:solana:AAA" []] eq_refl eq_refl)
    as [Hsame _].
  exact Hsame.
Defined.

(* ===================================================================== *)
(** ** Origin of the resolver's decisions *)
(* ===================================================================== *)

Section Origin.

Variable JSON_parse : string -> option Js.Value.
Variable toUpperCase toLowerCase : string -> string.
Variable buildMultiCurrencyPrompt :
  string -> list Currency.t -> Js.Result string.
Variable fetch : string -> string -> Js.Result Response.t.

Lemma match_decision_origin (decisionMap : gmap string Js.Value)
    (c : Currency.t) (d : Decision.t) :
  match_decision toUpperCase toLowerCase decisionMap c = Js.Ok d →
  (fallback_of c = Js.Ok d
   ∧ ¬ (∃ item, decisionMap !! Currency.currencyId c = Some item
                ∧ Js.truthy item = true))
  ∨ ∃ item action type r,
      decisionMap !! Currency.currencyId c = Some item
      ∧ action_text toUpperCase item = Js.Ok action
      ∧ type_of_item toLowerCase item action = Js.Ok type
      ∧ Js.get item "reasoning" = Js.Ok r
      ∧ d = parsed_decision c action type r.
Proof.
  unfold match_decision.
  destruct (decisionMap !! Currency.currencyId c) as [item|] eqn:Hitem;
    [destruct (Js.truthy item) eqn:Htruthy|];
    try (intros Hfb; left; split; [done|]; intros (item' & Hsome & Ht);
         congruence).
  destruct (action_text toUpperCase item) as [action|] eqn:Haction; [|done].
  simpl.
  destruct (type_of_item toLowerCase item action) as [type|] eqn:Htype;
    [|done].
  simpl.
  destruct (Js.get item "reasoning") as [r|] eqn:Hr; [|done]. simpl.
  intros [= <-]. right. by exists item, action, type, r.
Qed.

Lemma build_decision_map_app (l1 l2 : list Js.Value)
    (m0 : gmap string Js.Value) :
  build_decision_map (l1 ++ l2) m0 =
  (m1 <- build_decision_map l1 m0 ;; build_decision_map l2 m1).
Proof.
  revert m0. induction l1 as [|it l1 IH]; intros m0; simpl; [done|].
  destruct (Js.get it "currencyId") as [cid|]; [|done]. simpl. apply IH.
Qed.

(** The last entry that carries an identifier is the one the lookup
    keeps. *)
Lemma build_decision_map_last (pre post : list Js.Value) (item : Js.Value)
    (m : gmap string Js.Value) (k : string) :
  build_decision_map (pre ++ item :: post) ∅ = Js.Ok m →
  Js.get item "currencyId" = Js.Ok (Js.Str k) →
  k ≠ "" →
  (∀ it, it ∈ post → Js.get it "currencyId" ≠ Js.Ok (Js.Str k)) →
  m !! k = Some item.
Proof.
  rewrite build_decision_map_app.
  destruct (build_decision_map pre ∅) as [m1|]; [|done]. simpl.
  intros Hbuild Hcid Hk Hpost. rewrite Hcid in Hbuild. simpl in Hbuild.
  destruct (String.eqb_spec k "") as [|_]; [done|]. simpl in Hbuild.
  rewrite (build_decision_map_other _ _ _ _ Hbuild Hpost).
  apply lookup_insert_eq.
Qed.

Lemma parse_origin (gptText : Js.Value) (cs : list Currency.t)
    (ds : list Decision.t) (i : nat) (c : Currency.t) (d : Decision.t) :
  parseMultiCurrencyResponse JSON_parse toUpperCase toLowerCase gptText cs
  = Js.Ok ds →
  cs !! i = Some c → ds !! i = Some d →
  fallback_of c = Js.Ok d
  ∨ ∃ items item,
      response_items JSON_parse gptText = Some items
      ∧ item ∈ items ∧ built_from toUpperCase toLowerCase c item d.
Proof.
  intros Hparse Hc Hd.
  assert (Hfb : fallback_all cs = Js.Ok ds → fallback_of c = Js.Ok d).
  { intros Hall.
    destruct (fallback_all_lookup _ _ _ _ Hall Hc) as (d' & Hd' & Hfb).
    congruence. }
  revert Hparse.
  unfold parseMultiCurrencyResponse, parse_response_body, parse_json,
    response_items.
  destruct gptText as [| | | |text| |];
    try (intros Hall; left; by apply Hfb).
  destruct (Js.match_json_array text) as [jsonMatch|];
    [|intros Hall; left; by apply Hfb].
  destruct (JSON_parse jsonMatch) as [jsonData|];
    [|intros Hall; left; by apply Hfb]. simpl.
  destruct jsonData as [| | | | |items|];
    try (intros Hall; left; by apply Hfb).
  destruct (build_decision_map items ∅) as [decisionMap|] eqn:Hmap;
    [|intros Hall; left; by apply Hfb]. simpl.
  destruct (match_decisions toUpperCase toLowerCase decisionMap cs)
    as [ds'|] eqn:Hds;
    [|intros Hall; left; by apply Hfb]. simpl.
  intros [= <-]. apply match_decisions_each in Hds.
  destruct (Forall2_lookup_l _ _ _ _ _ Hds Hc) as (d' & Hd' & Hmatch).
  assert (d' = d) as -> by congruence.
  destruct (match_decision_origin _ _ _ Hmatch)
    as [[Hfallback _]|(item & action & type & r & Hitem & Ha & Ht & Hr & ->)];
    [by left|].
  right. exists items, item. split; [done|].
  destruct (build_decision_map_lookup _ _ _ _ _ Hmap Hitem)
    as [Hempty|[Hin Hcid]]; [by rewrite lookup_empty in Hempty|].
  split; [done|]. by exists action, type, r.
Qed.

End Origin.

(** X7. Every decision [analyzeMultipleWithAI] returns for a record is
    either what the record's fallback call returns or is built from an
    entry of the parsed response array that carries the record's
    identifier: such a decision has confidence 0.7, the action and
    position type normalised from the entry under the case mappings of the
    host, the entry's reasoning (or the default text) and the entry price
    read from the record's latest sample. A list is returned for every
    behaviour of the collaborators when every record of the batch carries
    the OHLC the heuristic reads. *)
Theorem analyzeMultipleWithAI_decision_origin
    (JSON_parse : string -> option Js.Value)
    (toUpperCase toLowerCase : string -> string)
    (buildMultiCurrencyPrompt : string -> list Currency.t -> Js.Result string)
    (fetch : string -> string -> Js.Result Response.t)
    (e : Engine.t) (cs : list Currency.t) :
  let resolved :=
    analyzeMultipleWithAI JSON_parse toUpperCase toLowerCase
      buildMultiCurrencyPrompt fetch e cs in
  (Forall (fun c => carries_ohlc c = true) cs → ∃ ds, resolved = Js.Ok ds)
  ∧ ∀ ds, resolved = Js.Ok ds →
      ∀ i c d, cs !! i = Some c → ds !! i = Some d →
        fallback_of c = Js.Ok d
        ∨ (Decision.confidence d = 0.7%float
           ∧ Decision.entryPrice d
             = parsed_entry_price (Currency.tradeMetrics c)
           ∧ Js.truthy (Decision.reasoning d) = true
           ∧ ∃ gptText items item,
               service_outcome buildMultiCurrencyPrompt fetch e cs
               = ResponseText gptText
               ∧ response_items JSON_parse gptText = Some items
               ∧ item ∈ items
               ∧ built_from toUpperCase toLowerCase c item d).
Proof.
  intros resolved. subst resolved.
  split; [apply analyzeMultipleWithAI_defined|].
  intros ds. rewrite analyzeMultipleWithAI_by_outcome.
  destruct (service_outcome buildMultiCurrencyPrompt fetch e cs)
    as [| | | | | | |gptText] eqn:Houtcome.
  1-7: intros Hall i c d Hc Hd; left;
       destruct (fallback_all_lookup _ _ _ _ Hall Hc) as (d' & Hd' & Hfb);
       congruence.
  intros Hds i c d Hc Hd.
  destruct (parse_origin JSON_parse toUpperCase toLowerCase gptText cs ds
              i c d Hds Hc Hd)
    as [Hfb|(items & item & Hitems & Hin & Hbuilt)]; [by left|].
  right. pose proof Hbuilt as (action & type & r & _ & _ & _ & _ & ->).
  split_and!; try done.
  - simpl. by destruct (Js.truthy r) eqn:Hr.
  - by exists gptText, items, item.
Qed.

(** X8. When the response array names an identifier more than once, the
    last such entry decides: whenever the [try] block of the parser runs
    to its end (the batch is not degraded to the fallback), the decision
    returned for the record is the one built from that entry. *)
Theorem parseMultiCurrencyResponse_last_entry_wins
    (JSON_parse : string -> option Js.Value)
    (toUpperCase toLowerCase : string -> string) (gptText : Js.Value)
    (pre post : list Js.Value) (item : Js.Value) (cs : list Currency.t)
    (ds : list Decision.t) (i : nat) (c : Currency.t) :
  response_items JSON_parse gptText = Some (pre ++ item :: post)%list →
  Js.get item "currencyId" = Js.Ok (Js.Str (Currency.currencyId c)) →
  Currency.currencyId c ≠ "" →
  (∀ it, it ∈ post →
     Js.get it "currencyId" ≠ Js.Ok (Js.Str (Currency.currencyId c))) →
  cs !! i = Some c →
  parse_response_body JSON_parse toUpperCase toLowerCase gptText cs
  = Js.Ok ds →
  parseMultiCurrencyResponse JSON_parse toUpperCase toLowerCase gptText cs
  = Js.Ok ds
  ∧ ∃ d, ds !! i = Some d
         ∧ built_from toUpperCase toLowerCase c item d.
Proof.
  intros Hitems Hcid Hne Hpost Hc Hbody.
  split; [unfold parseMultiCurrencyResponse; by rewrite Hbody|].
  revert Hitems Hbody.
  unfold parse_response_body, parse_json, response_items.
  destruct gptText as [| | | |text| |]; try done.
  destruct (Js.match_json_array text) as [jsonMatch|]; [|done].
  destruct (JSON_parse jsonMatch) as [jsonData|]; [|done]. simpl.
  destruct jsonData as [| | | | |items|]; try done.
  intros [= ->].
  destruct (build_decision_map (pre ++ item :: post) ∅)
    as [decisionMap|] eqn:Hmap; [|done]. simpl.
  intros Hmatch%match_decisions_each.
  destruct (Forall2_lookup_l _ _ _ _ _ Hmatch Hc) as (d & Hd & Hone).
  exists d. split; [done|].
  pose proof (build_decision_map_last _ _ _ _ _ Hmap Hcid Hne Hpost) as Hlast.
  destruct (match_decision_origin _ _ _ _ _ Hone)
    as [[_ Hnone]|(item' & action & type & r & Hitem' & Ha & Ht & Hr & ->)].
  - destruct Hnone. exists item. split; [done|]. by destruct item.
  - assert (item' = item) as -> by congruence.
    by exists action, type, r.
Qed.

Lemma parseMultiCurrencyResponse_last_entry_wins_witness :
  let decision :=
    parsed_decision (Sample.record "bid:solana:AAA" []) "CLOSE" "long"
      (Js.Str "Strong bullish trend") in
  parseMultiCurrencyResponse
    (Sample.parse_as [Sample.entry "bid:solana:AAA" "OPEN LONG";
                      Sample.entry "bid:solana:AAA" "CLOSE"])
    Sample.toUpperCase Sample.toLowerCase
    (Js.Str "[entries]") [Sample.record "bid:solana:AAA" []]
  = Js.Ok [decision]
  ∧ ∃ d, [decision] !! 0 = Some d
         ∧ built_from Sample.toUpperCase Sample.toLowerCase
             (Sample.record "bid:solana:AAA" [])
             (Sample.entry "bid:solana:AAA" "CLOSE") d.
Proof.
  apply (parseMultiCurrencyResponse_last_entry_wins
           (Sample.parse_as [Sample.entry "bid:solana:AAA" "OPEN LONG";
                             Sample.entry "bid:solana:AAA" "CLOSE"])
           Sample.toUpperCase Sample.toLowerCase
           (Js.Str "[entries]")
           [Sample.entry "bid:solana:AAA" "OPEN LONG"] []
           (Sample.entry "bid:solana:AAA" "CLOSE")
           [Sample.record "bid:solana:AAA" []] _ 0
           (Sample.record "bid:solana:AAA" [])).
  - reflexivity.
  - reflexivity.
  - discriminate.
  - intros it Hin. by apply elem_of_nil in Hin.
  - reflexivity.
  - reflexivity.
Defined.

Lemma build_decision_map_null (items : list Js.Value)
    (m0 : gmap string Js.Value) :
  Js.Null ∈ items → ∃ err, build_decision_map items m0 = Js.Throw err.
Proof.
  revert m0. induction items as [|it items IH]; intros m0 Hin;
    [by inversion Hin|].
  simpl. apply elem_of_cons in Hin as [<-|Hin]; [by eexists|].
  destruct (Js.get it "currencyId"); [|by eexists]. simpl. by apply IH.
Qed.

Lemma get_text_object (item : Js.Value) (k s : string) :
  Js.get item k = Js.Ok (Js.Str s) → Js.truthy item = true.
Proof. by destruct item. Qed.

(** X9. One malformed entry degrades the whole batch: when the parsed
    response array holds a [null], or when the deciding entry of some
    record of the batch has an [action] that is neither a string nor
    missing, the parser returns the fallback of the batch: every record
    gets its fallback decision, the records with well-formed entries
    included. *)
Theorem parseMultiCurrencyResponse_malformed_entry
    (JSON_parse : string -> option Js.Value)
    (toUpperCase toLowerCase : string -> string) (gptText : Js.Value)
    (items : list Js.Value) (cs : list Currency.t) :
  response_items JSON_parse gptText = Some items →
  (Js.Null ∈ items →
   parseMultiCurrencyResponse JSON_parse toUpperCase toLowerCase gptText cs
   = fallback_all cs)
  ∧ (∀ pre item post c a,
       items = (pre ++ item :: post)%list →
       c ∈ cs →
       Js.get item "currencyId" = Js.Ok (Js.Str (Currency.currencyId c)) →
       Currency.currencyId c ≠ "" →
       (∀ it, it ∈ post →
          Js.get it "currencyId"
          ≠ Js.Ok (Js.Str (Currency.currencyId c))) →
       Js.get item "action" = Js.Ok a → not_text a →
       parseMultiCurrencyResponse JSON_parse toUpperCase toLowerCase
         gptText cs
       = fallback_all cs).
Proof.
  unfold parseMultiCurrencyResponse, parse_response_body, parse_json,
    response_items.
  destruct gptText as [| | | |text| |]; try done.
  destruct (Js.match_json_array text) as [jsonMatch|]; [|done].
  destruct (JSON_parse jsonMatch) as [jsonData|]; [|done]. simpl.
  destruct jsonData as [| | | | |items'|]; try done.
  intros [= ->]. split.
  - intros Hnull.
    by destruct (build_decision_map_null items ∅ Hnull) as [err ->].
  - intros pre item post c a -> Hc Hcid Hne Hpost Haction Hbad.
    destruct (build_decision_map (pre ++ item :: post) ∅)
      as [decisionMap|] eqn:Hmap; [|done]. simpl.
    pose proof (build_decision_map_last _ _ _ _ _ Hmap Hcid Hne Hpost)
      as Hlast.
    assert (Hthrow : ∃ err,
              match_decision toUpperCase toLowerCase decisionMap c
              = Js.Throw err).
    { unfold match_decision.
      rewrite Hlast, (get_text_object _ _ _ Hcid).
      unfold action_text. rewrite Haction. simpl.
      destruct a; try done; by eexists. }
    destruct Hthrow as [err Hthrow].
    by destruct (match_decisions_throw _ _ _ _ _ _ Hc Hthrow) as [err' ->].
Qed.

Lemma parseMultiCurrencyResponse_malformed_entry_witness :
  parseMultiCurrencyResponse
    (Sample.parse_as [Sample.entry "bid:solana:AAA" "OPEN LONG"; Js.Null])
    Sample.toUpperCase Sample.toLowerCase
    (Js.Str "[entries]")
    [Sample.record "bid:solana:AAA" [Sample.flat 3 5 None]]
  = fallback_all [Sample.record "bid:solana:AAA" [Sample.flat 3 5 None]].
Proof.
  destruct (parseMultiCurrencyResponse_malformed_entry
              (Sample.parse_as
                 [Sample.entry "bid:solana:AAA" "OPEN LONG"; Js.Null])
              Sample.toUpperCase Sample.toLowerCase
              (Js.Str "[entries]")
              [Sample.entry "bid:solana:AAA" "OPEN LONG"; Js.Null]
              [Sample.record "bid:solana:AAA" [Sample.flat 3 5 None]]
              eq_refl) as [Hnull _].
  apply Hnull. right. left.
Defined.

(* ===================================================================== *)
(** ** The heuristic without a moving average *)
(* ===================================================================== *)

Lemma SFcompare_same (x : spec_float) :
  SFcompare x x = None ∨ SFcompare x x = Some Eq.
Proof.
  destruct x as [s|s| |s m e]; simpl; try (by right); [by destruct s; right| |].
  - by left.
  - right. rewrite Z.compare_refl, Pos.compare_cont_refl. by destruct s.
Qed.

Lemma gt_same (x : float) : Js.gt x x = false.
Proof.
  unfold Js.gt. rewrite FloatAxioms.ltb_spec. unfold SFltb.
  by destruct (SFcompare_same (Prim2SF x)) as [-> | ->].
Qed.

Lemma num_or_unusable (x : option float) (b : float) :
  unusable x → Js.num_or x b = b.
Proof. destruct x as [v|]; simpl; [by intros ->|done]. Qed.

(** X11. Without a moving average the heuristic never goes long: when the
    latest sample's estimated price and weighted moving average are both
    missing, zero or NaN, [close] is compared with itself, so the decision
    is a hold when [close > open] and an open/short otherwise, with
    [close] as its entry price. *)
Theorem fallbackDecision_without_average (currencyId : string)
    (volatilityData : Js.Value) (tradeMetrics : list Metric.t)
    (latestMetric : Metric.t) (price : Metric.PriceT)
    (ohlc : Metric.OhlcT) :
  last tradeMetrics = Some latestMetric →
  Metric.Price latestMetric = Some price →
  Metric.Ohlc price = Some ohlc →
  unusable (a ← Metric.Average price; Metric.Estimate a) →
  unusable (a ← Metric.Average price; Metric.WeightedSimpleMoving a) →
  let closeP := Metric.Close ohlc in
  let openP := Metric.Open ohlc in
  ∃ d,
    fallbackDecision currencyId volatilityData tradeMetrics = Js.Ok d
    ∧ Decision.entryPrice d = closeP
    ∧ (Js.gt closeP openP = true →
       Decision.decision d = hold ∧ Decision.positionType d = "long")
    ∧ (Js.gt closeP openP = false →
       Decision.decision d = open ∧ Decision.positionType d = "short")
    ∧ ¬ (Decision.decision d = open ∧ Decision.positionType d = "long").
Proof.
  intros Hlast Hprice Hohlc Hestimate Hsma closeP openP.
  unfold fallbackDecision. rewrite Hlast, Hprice, Hohlc. cbv zeta.
  rewrite (num_or_unusable _ _ Hestimate), (num_or_unusable _ _ Hsma).
  fold closeP openP. rewrite gt_same.
  destruct (Js.gt closeP openP); simpl;
    (eexists; split; [reflexivity|]); simpl; split_and!; try done;
    by intros [? ?].
Qed.

Lemma fallbackDecision_without_average_witness :
  ∃ d,
    fallbackDecision "bid:solana:AAA" (Js.Num 12.5) [Sample.flat 5 3 None]
    = Js.Ok d
    ∧ Decision.decision d = open
    ∧ Decision.positionType d = "short".
Proof.
  destruct (fallbackDecision_without_average "bid:solana:AAA" (Js.Num 12.5)
              [Sample.flat 5 3 None] (Sample.flat 5 3 None)
              {| Metric.Average := None;
                 Metric.Ohlc :=
                   Some {| Metric.Open := 5; Metric.High := 3;
                           Metric.Low := 5; Metric.Close := 3 |} |}
              {| Metric.Open := 5; Metric.High := 3;
                 Metric.Low := 5; Metric.Close := 3 |}
              eq_refl eq_refl eq_refl I I)
    as (d & Hd & _ & _ & Hshort & _).
  exists d. split; [exact Hd|]. exact (Hshort eq_refl).
Defined.

(* ===================================================================== *)
(** ** Messages of executeDecision *)
(* ===================================================================== *)

(** X14. [executeDecision] returns the empty message exactly when it did
    nothing: an [open] the capital guard rejected, or a [close] for an
    address with no open position; in both cases, and for every [hold]
    (whose message is never empty), the engine is left as it was. *)
Theorem executeDecision_empty_message (toFixed : float -> nat -> string)
    (e : Engine.t) (now : Z) (d : Decision.t) :
  let result := (executeDecision toFixed e now d).1 in
  let e' := (executeDecision toFixed e now d).2 in
  let rejected :=
    Decision.decision d = open
    ∧ Js.ge (Engine.allocatedCapital e) (Engine.capital e * 0.9)%float
      = true in
  let absent :=
    Decision.decision d = close
    ∧ JsMap.get (parseCurrencyId (Decision.currencyId d)).2
        (Engine.positions e) = None in
  (Executed.message result = "" ↔ rejected ∨ absent)
  ∧ (Executed.message result = "" → e' = e)
  ∧ (Decision.decision d = hold → e' = e)
  ∧ Executed.decision result = Decision.decision d
  ∧ Executed.currencyId result = display_name (Decision.currencyId d).
Proof.
  unfold executeDecision, openPosition.
  destruct (parseCurrencyId (Decision.currencyId d)) as [network address].
  destruct (Decision.decision d); simpl.
  - destruct (Js.ge _ _) eqn:Hguard; simpl; split_and!; try done.
    + split; [by left|done].
    + split; [done|]. by intros [[_ ?]|[? _]].
  - destruct (JsMap.get address (Engine.positions e)) as [position|] eqn:Hget;
      simpl; split_and!; try done.
    + split; [done|]. by intros [[? _]|[_ ?]].
    + split; [by right|done].
  - split_and!; try done. split; [done|]. by intros [[? _]|[? _]].
Qed.

(* ===================================================================== *)
(** ** Selection of the currencies and of the profile *)
(* ===================================================================== *)

(** X12. [selectCurrenciesForTrading] returns ten rows of its input (all of
    them when there are fewer): for the ["low"] profile the last ten in
    reverse order, for any other profile the first ten in order. With ten
    rows or fewer the selection is the whole input, rearranged. *)
Theorem selectCurrenciesForTrading_selection {A : Type}
    (riskProfile : string) (currencies : list A) :
  let selected := selectCurrenciesForTrading riskProfile currencies in
  length selected = min 10 (length currencies)
  ∧ (∀ x, x ∈ selected → x ∈ currencies)
  ∧ (riskProfile = "low" →
     selected = reverse (drop (length currencies - 10) currencies))
  ∧ (riskProfile ≠ "low" → selected = take 10 currencies)
  ∧ (length currencies ≤ 10 → selected ≡ₚ currencies).
Proof.
  unfold selectCurrenciesForTrading.
  destruct (String.eqb_spec riskProfile "low") as [->|Hne]; cbv zeta.
  - split_and!; try done.
    + by rewrite length_take, length_reverse.
    + intros x Hx%subseteq_take. by apply elem_of_reverse.
    + intros _. apply take_reverse.
    + intros Hlen. rewrite take_ge by (rewrite length_reverse; lia).
      apply reverse_Permutation.
  - split_and!; try done.
    + by rewrite length_take.
    + intros x Hx. by apply (subseteq_take 10 currencies).
    + intros Hlen. by rewrite take_ge by lia.
Qed.

(** X15. The answer typed at the prompt fixes the whole configuration:
    the trimmed answer ["1"] gives the ["high"] profile, with the high
    risk parameters, the high-risk strategy text and the first ten rows
    selected; any other answer gives the ["low"] profile, with the low
    risk parameters, the low-risk strategy text and the last ten rows
    selected in reverse. *)
Theorem selectRiskProfile_configuration {A : Type}
    (trim : string -> string) (lowRiskStrategy highRiskStrategy : string)
    (answer : string) (currencies : list A) :
  let riskProfile := selectRiskProfile trim answer in
  (trim answer = "1" →
   riskProfile = "high"
   ∧ getRiskParameters riskProfile = profile_high
   ∧ getStrategy lowRiskStrategy highRiskStrategy riskProfile
     = highRiskStrategy
   ∧ selectCurrenciesForTrading riskProfile currencies
     = take 10 currencies)
  ∧ (trim answer ≠ "1" →
     riskProfile = "low"
     ∧ getRiskParameters riskProfile = profile_low
     ∧ getStrategy lowRiskStrategy highRiskStrategy riskProfile
       = lowRiskStrategy
     ∧ selectCurrenciesForTrading riskProfile currencies
       = take 10 (reverse currencies)).
Proof.
  unfold selectRiskProfile.
  destruct (String.eqb_spec (trim answer) "1") as [Hone|Hother]; cbv zeta.
  - split; [by intros _|done].
  - split; [done|]. intros _.
    by destruct (String.eqb (trim answer) "2").
Qed.

(* ===================================================================== *)
(** ** The trading cycle *)
(* ===================================================================== *)




Section CycleFacts.

Variable toFixed : float -> nat -> string.
Variable JSON_parse : string -> option Js.Value.
Variable toUpperCase toLowerCase : string -> string.
Variable buildMultiCurrencyPrompt :
  string -> list Currency.t -> Js.Result string.
Variable fetch : string -> string -> Js.Result Response.t.
Variable bitqueryClient : MetricsClient.
Variable clock : nat -> Z.

(** One turn of the execution loop. *)
Lemma execute_each_cons (e : Engine.t) (i : nat) (c : Currency.t)
    (rest : list Currency.t) (ds : list Decision.t) (messages : list string)
    (e' : Engine.t) :
  execute_each toFixed clock e i (c :: rest) ds = Js.Ok (messages, e') →
  ∃ d tail,
    (ds !! i = Some d ∨ (ds !! i = None ∧ fallback_of c = Js.Ok d))
    ∧ execute_each toFixed clock (executeDecision toFixed e (clock i) d).2
        (S i) rest ds = Js.Ok (tail, e')
    ∧ messages
      = Executed.message (executeDecision toFixed e (clock i) d).1 :: tail.
Proof.
  simpl.
  assert (Hturn : ∀ d,
    (let '(result, e1) := executeDecision toFixed e (clock i) d in
     run <- execute_each toFixed clock e1 (S i) rest ds ;;
     Js.Ok (Executed.message result :: run.1, run.2)) = Js.Ok (messages, e') →
    ∃ tail,
      execute_each toFixed clock (executeDecision toFixed e (clock i) d).2
        (S i) rest ds = Js.Ok (tail, e')
      ∧ messages
        = Executed.message (executeDecision toFixed e (clock i) d).1 :: tail).
  { intros d. destruct (executeDecision toFixed e (clock i) d) as [result e1].
    simpl.
    destruct (execute_each toFixed clock e1 (S i) rest ds)
      as [[tail e2]|]; [|done].
    simpl. intros [= <- <-]. by exists tail. }
  destruct (ds !! i) as [d|] eqn:Hd; simpl.
  - intros (tail & Hrun & Hmessages)%Hturn. exists d, tail. by split; [left|].
  - destruct (fallback_of c) as [d|] eqn:Hfb; [|done]. simpl.
    intros (tail & Hrun & Hmessages)%Hturn. exists d, tail.
    by split; [right|].
Qed.

Lemma execute_each_reachable (riskProfile : string) (key : option string)
    (records : list Currency.t) (ds : list Decision.t) (i : nat)
    (clean : bool) (e : Engine.t) (messages : list string) (e' : Engine.t) :
  reachable riskProfile key clean e →
  execute_each toFixed clock e i records ds = Js.Ok (messages, e') →
  length messages = length records
  ∧ ∃ clean', reachable riskProfile key clean' e'.
Proof.
  revert i clean e messages.
  induction records as [|c rest IH]; intros i clean e messages Hreach.
  - simpl. intros [= <- <-]. split; [done|by exists clean].
  - intros (d & tail & _ & Hrun & ->)%execute_each_cons.
    pose proof (executeDecision_reachable toFixed _ _ _ _ (clock i) d Hreach)
      as [clean1 Hreach1].
    destruct (IH _ _ _ _ Hreach1 Hrun) as [Hlen Hreach2].
    split; [simpl; by rewrite Hlen|done].
Qed.

(** The loop runs to its end when every index has its decision, or a
    record whose fallback call returns. *)
Lemma execute_each_defined (records : list Currency.t)
    (ds : list Decision.t) (i : nat) (e : Engine.t) :
  (∀ j c, records !! j = Some c →
     is_Some (ds !! (i + j)) ∨ carries_ohlc c = true) →
  ∃ run, execute_each toFixed clock e i records ds = Js.Ok run.
Proof.
  revert i e. induction records as [|c rest IH]; intros i e Hall;
    [by eexists|].
  simpl.
  assert (Hd : ∃ d, match ds !! i with
                    | Some d => Js.Ok d
                    | None => fallback_of c
                    end = Js.Ok d).
  { destruct (Hall 0 c eq_refl) as [[d Hd]|Hc].
    - rewrite Nat.add_0_r in Hd. rewrite Hd. by eexists.
    - destruct (ds !! i); [by eexists|by apply fallback_of_defined]. }
  destruct Hd as [d ->]. simpl.
  destruct (executeDecision toFixed e (clock i) d) as [result e1].
  destruct (IH (S i) e1) as [run ->]; [|by eexists].
  intros j c' Hc'. specialize (Hall (S j) c' Hc').
  by replace (S i + j) with (i + S j) by lia.
Qed.



(** X13. A trading cycle runs to its end on a fresh engine whose tag is
    not a name of [Object.prototype], with a market data client that, for
    each currency, throws or resolves to an array of samples whose latest
    one has the [Ohlc] object whenever it has a [Price]: whatever the
    reasoning service and [JSON.parse] do, [startAITrading] prints one
    message per currency and leaves an engine that keeps the capital
    accounting: capital 100000, allocated capital between zero and the
    capital and not below the sum of the open sizes, at most nine open
    positions (three on the ["high"] profile). *)
Theorem startAITrading_completes (riskProfile : string)
    (key : option string) (currencies : list Row.t) :
  Js.inherited riskProfile = false →
  Forall (fun row => carries_ohlc (fetch_record bitqueryClient row) = true)
    currencies →
  ∃ messages e',
    startAITrading toFixed JSON_parse toUpperCase toLowerCase
      buildMultiCurrencyPrompt fetch bitqueryClient clock
      (new_engine riskProfile key) currencies
    = Js.Ok (messages, e')
    ∧ length messages = length currencies
    ∧ Engine.capital e' = 100000%float
    ∧ Js.le 0 (Engine.allocatedCapital e') = true
    ∧ Js.le (Engine.allocatedCapital e') (Engine.capital e') = true
    ∧ Js.le (sum_sizes (Engine.positions e')) (Engine.allocatedCapital e')
      = true
    ∧ length (getOpenPositions e')
      ≤ (if String.eqb riskProfile "high" then 3 else 9).
Proof.
  intros Hown Hohlc. unfold startAITrading.
  set (records := map (fetch_record bitqueryClient) currencies).
  assert (Hrecords : Forall (fun c => carries_ohlc c = true) records).
  { subst records. by apply Forall_fmap. }
  destruct (analyzeMultipleWithAI_defined JSON_parse toUpperCase toLowerCase
              buildMultiCurrencyPrompt fetch (new_engine riskProfile key)
              records Hrecords) as [ds Hds].
  rewrite Hds. simpl.
  destruct (execute_each_defined records ds 0 (new_engine riskProfile key))
    as [[messages e'] Hrun].
  { intros j c Hc. right.
    apply (proj1 (Forall_forall _ _) Hrecords).
    by apply list_elem_of_lookup_2 in Hc. }
  rewrite Hrun. exists messages, e'. split; [done|].
  destruct (execute_each_reachable riskProfile key records ds 0 true
              (new_engine riskProfile key) messages e' (reach_new _ _) Hrun)
    as [Hlen [clean' Hreach]].
  destruct (capital_accounting _ _ _ _ Hown Hreach)
    as (Hlow & Hhigh & Hsum & _ & _).
  pose proof (reachable_inv _ _ _ _ Hown Hreach) as (n & Hcap & Hrest).
  destruct Hrest as (_ & _ & Hn & Hbook & _).
  split_and!; try done.
  - subst records. by rewrite Hlen, length_map.
  - unfold getOpenPositions, JsMap.values. rewrite length_map.
    revert Hn. unfold open_slots.
    destruct (String.eqb_spec riskProfile "low") as [->|_]; simpl; [lia|].
    destruct (String.eqb riskProfile "high"); lia.
Qed.


End CycleFacts.

Lemma startAITrading_completes_witness :
  ∃ messages e',
    startAITrading Sample.toFixed (Sample.parse_as [])
      Sample.toUpperCase Sample.toLowerCase
      SampleCycle.no_prompt SampleCycle.unreachable_service
      SampleCycle.steady_metrics SampleCycle.clock
      (new_engine "high" (Some "key"))
      [SampleCycle.row "bid:solana:AAA" 55; SampleCycle.row "eth:BBB" 40]
    = Js.Ok (messages, e')
    ∧ length messages = 2
    ∧ length (getOpenPositions e') ≤ 3.
Proof.
  destruct (startAITrading_completes Sample.toFixed (Sample.parse_as [])
              Sample.toUpperCase Sample.toLowerCase
              SampleCycle.no_prompt SampleCycle.unreachable_service
              SampleCycle.steady_metrics SampleCycle.clock
              "high" (Some "key")
              [SampleCycle.row "bid:solana:AAA" 55;
               SampleCycle.row "eth:BBB" 40]
              eq_refl
              (Forall_cons_2 _ _ _ eq_refl
                 (Forall_cons_2 _ _ _ eq_refl (Forall_nil_2 _))))
    as (messages & e' & Hrun & Hlen & _ & _ & _ & _ & Hbook).
  exists messages, e'. split; [exact Hrun|]. split; [exact Hlen|exact Hbook].
Defined.


(* ===================================================================== *)
(** ** Market data client *)
(* ===================================================================== *)

Section BitqueryFacts.

Variable fetch : string -> string -> Js.Result Response.t.
Variable to_text : Js.Value -> string.

Lemma currencies_of_truthy (result v : Js.Value) :
  currencies_of result = Js.Ok v → Js.truthy v = true →
  ∃ data trading,
    Js.get result "data" = Js.Ok data ∧ Js.truthy data = true
    ∧ Js.get data "Trading" = Js.Ok trading ∧ Js.truthy trading = true
    ∧ Js.get trading "Currencies" = Js.Ok v.
Proof.
  unfold currencies_of.
  destruct (Js.get result "data") as [data|] eqn:Hdata; [|done]. simpl.
  destruct (Js.get data "Trading") as [trading|] eqn:Htrading; [|done].
  simpl. intros Hv Htruthy. exists data, trading.
  assert (Ht : Js.truthy trading = true).
  { destruct trading; simpl in *; try done; by injection Hv as <-. }
  assert (Hd : Js.truthy data = true).
  { destruct data; simpl in *; try done;
      injection Htrading as <-; done. }
  done.
Qed.

Lemma read_currencies_returns (request : string) (v : Js.Value) :
  read_currencies fetch to_text request = Js.Ok v ↔
  ∃ response result errors,
    fetch baseURL request = Js.Ok response
    ∧ Response.ok response = true
    ∧ Response.json response = Js.Ok result
    ∧ Js.get result "errors" = Js.Ok errors
    ∧ Js.truthy errors = false
    ∧ currencies_of result = Js.Ok v
    ∧ Js.truthy v = true.
Proof.
  unfold read_currencies. split.
  - destruct (fetch baseURL request) as [response|] eqn:Hfetch; [|done].
    simpl. destruct (Response.ok response) eqn:Hok; simpl;
      [|by destruct (Response.text response)].
    destruct (Response.json response) as [result|] eqn:Hjson; [|done].
    simpl. destruct (Js.get result "errors") as [errors|] eqn:Herrors;
      [|done]. simpl.
    destruct (Js.truthy errors) eqn:Htruthy.
    { destruct (Js.get0 errors) as [first|]; [|done]. simpl.
      by destruct (Js.get first "message"). }
    destruct (Js.get result "data") as [data|] eqn:Hdata; [|done]. simpl.
    destruct (Js.truthy data); [|done]. simpl.
    destruct (Js.get data "Trading") as [trading|] eqn:Htrading; [|done].
    simpl. destruct (Js.truthy trading); [|done]. simpl.
    destruct (Js.get trading "Currencies") as [currencies|] eqn:Hcur;
      [|done]. simpl.
    destruct (Js.truthy currencies) eqn:Hv; [|done]. simpl.
    intros [= <-]. exists response, result, errors.
    split_and!; try done.
    unfold currencies_of. rewrite Hdata. simpl. by rewrite Htrading.
  - intros (response & result & errors & -> & Hok & Hjson & Herrors
              & Hfalsy & Hcur & Hv).
    simpl. rewrite Hok. simpl. rewrite Hjson. simpl. rewrite Herrors. simpl.
    rewrite Hfalsy.
    destruct (currencies_of_truthy _ _ Hcur Hv)
      as (data & trading & Hdata & Hd & Htrading & Ht & Hlist).
    simpl. rewrite Hdata. simpl. rewrite Hd. simpl. rewrite Htrading. simpl.
    rewrite Ht. simpl. rewrite Hlist. simpl. by rewrite Hv.
Qed.

End BitqueryFacts.

(** X16. The market data client returns only a usable list: each of its
    two methods returns a value exactly when [fetch] resolves with [ok]
    set, the body parses, its [errors] field is falsy and
    [data.Trading.Currencies] is truthy, and the value is that field; in
    every other case the method throws, and an error of [fetch] itself is
    thrown on unchanged. *)
Theorem bitquery_client_returns
    (fetch : string -> string -> Js.Result Response.t)
    (to_text : Js.Value -> string) (volatility_request : string)
    (metrics_request : string -> Z -> string)
    (currencyId : string) (hoursAgo : Z) :
  let returns (request : string) (outcome : Js.Result Js.Value) :=
    (∀ v, outcome = Js.Ok v ↔
       ∃ response result errors,
         fetch baseURL request = Js.Ok response
         ∧ Response.ok response = true
         ∧ Response.json response = Js.Ok result
         ∧ Js.get result "errors" = Js.Ok errors
         ∧ Js.truthy errors = false
         ∧ currencies_of result = Js.Ok v
         ∧ Js.truthy v = true)
    ∧ (∀ err, fetch baseURL request = Js.Throw err →
         outcome = Js.Throw err)
    ∧ (∀ response, fetch baseURL request = Js.Ok response →
         Response.ok response = false → ∃ err, outcome = Js.Throw err) in
  returns (metrics_request currencyId hoursAgo)
    (getTradeMetrics fetch to_text metrics_request currencyId hoursAgo)
  ∧ returns volatility_request
      (getCurrencyVolatilityData fetch to_text volatility_request).
Proof.
  assert (Hall : ∀ request,
    (∀ v, read_currencies fetch to_text request = Js.Ok v ↔
       ∃ response result errors,
         fetch baseURL request = Js.Ok response
         ∧ Response.ok response = true
         ∧ Response.json response = Js.Ok result
         ∧ Js.get result "errors" = Js.Ok errors
         ∧ Js.truthy errors = false
         ∧ currencies_of result = Js.Ok v
         ∧ Js.truthy v = true)
    ∧ (∀ err, fetch baseURL request = Js.Throw err →
         read_currencies fetch to_text request = Js.Throw err)
    ∧ (∀ response, fetch baseURL request = Js.Ok response →
         Response.ok response = false →
         ∃ err, read_currencies fetch to_text request = Js.Throw err)).
  { intros request. split; [intros v; apply read_currencies_returns|].
    unfold read_currencies. split.
    - by intros err ->.
    - intros response Hfetch Hok. rewrite Hfetch. simpl. rewrite Hok. simpl.
      destruct (Response.text response); simpl; by eexists. }
  intros returns. subst returns. cbv beta.
  split; apply Hall.
Qed.

(* ===================================================================== *)
(** ** Closing prices, stored positions and the capacity of the book *)
(* ===================================================================== *)




(** X18. Every position of an engine reached from a fresh one whose tag
    is not a name of [Object.prototype] is stored under the address parsed
    from its own identifier, carries the parsed network, the stop-loss and
    take-profit multipliers of the engine's profile, and an expected
    profit of its size times the take-profit margin. *)
Theorem stored_positions_well_formed (riskProfile : string)
    (key : option string) (clean : bool) (e : Engine.t) :
  Js.inherited riskProfile = false →
  reachable riskProfile key clean e →
  Forall (well_formed_position (getRiskParameters riskProfile))
    (Engine.positions e).
Proof.
  intros Hown.
  induction 1 as [|clean e now d Hreach IH|clean e p price Hreach IH Hp].
  - constructor.
  - pose proof (reachable_inv _ _ _ _ Hown Hreach) as (n & _ & Hparams & _).
    unfold openPosition. destruct (Js.ge _ _); [done|].
    destruct (parseCurrencyId (Decision.currencyId d)) as [network address]
      eqn:Hparse.
    simpl. apply Forall_set; [done|].
    unfold well_formed_position. simpl. by rewrite Hparse, Hparams.
  - simpl. by apply Forall_delete.
Qed.

Lemma stored_positions_well_formed_witness :
  Forall (well_formed_position profile_high)
    (Engine.positions Sample.full_engine).
Proof.
  exact (stored_positions_well_formed "high" None true Sample.full_engine
           eq_refl reachable_full_engine).
Defined.

(** X19. The book is full at nine positions (three on the ["high"]
    profile): on an engine reached, without any open having replaced a
    position, from a fresh one whose tag is not a name of
    [Object.prototype], [openPosition] is rejected exactly when that many
    positions are open, and is accepted, returning the stored position,
    otherwise. *)
Theorem openPosition_capacity (riskProfile : string) (key : option string)
    (e : Engine.t) (now : Z) (d : Decision.t) :
  Js.inherited riskProfile = false →
  reachable riskProfile key true e →
  let full :=
    length (getOpenPositions e)
    = (if String.eqb riskProfile "high" then 3 else 9) in
  ((openPosition e now d).1 = None ↔ full)
  ∧ (¬ full →
     ∃ position,
       (openPosition e now d).1 = Some position
       ∧ JsMap.get (Position.tokenAddress position)
           (Engine.positions (openPosition e now d).2) = Some position).
Proof.
  intros Hown Hreach full.
  pose proof (reachable_inv _ _ _ _ Hown Hreach)
    as (n & Hcap & _ & Halloc & Hn & _ & Hclean & _).
  specialize (Hclean eq_refl).
  destruct (profile_facts riskProfile Hown) as (Hguard_at & _).
  cbv zeta in Hguard_at.
  assert (Hslots : open_slots riskProfile
                   = if String.eqb riskProfile "high" then 3 else 9).
  { unfold open_slots.
    by destruct (String.eqb_spec riskProfile "low") as [->|_]. }
  assert (Hlen : length (getOpenPositions e) = n).
  { unfold getOpenPositions, JsMap.values. by rewrite length_map. }
  assert (Hguard :
    Js.ge (Engine.allocatedCapital e) (Engine.capital e * 0.9)%float
    = bool_decide (full)).
  { rewrite Hcap, Halloc, (Hguard_at n Hn). subst full.
    rewrite Hlen, <- Hslots. done. }
  unfold openPosition. rewrite Hguard.
  destruct (decide full) as [Hfull|Hfree].
  - rewrite bool_decide_eq_true_2 by done. simpl. by split.
  - rewrite bool_decide_eq_false_2 by done.
    destruct (parseCurrencyId (Decision.currencyId d)) as [network address].
    simpl. split; [by split|]. intros _.
    eexists. split; [done|]. simpl. apply get_set_eq.
Qed.

Lemma openPosition_capacity_witness :
  (openPosition Sample.full_engine 4
     (Sample.decide_on "bid:solana:DDD" open "long" 7)).1 = None.
Proof.
  destruct (openPosition_capacity "high" None Sample.full_engine 4
              (Sample.decide_on "bid:solana:DDD" open "long" 7)
              eq_refl reachable_full_engine) as [[_ Hfull] _].
  exact (Hfull eq_refl).
Defined.

(** X20. A [close] decision built from a response entry for a record with
    no samples carries the entry price 0, and [executeDecision] closes the
    open position at that price: the message reports the P&L realized at
    a closing price of 0, and the position leaves the book. *)
Theorem close_decision_without_samples (toFixed : float -> nat -> string)
    (toUpperCase toLowerCase : string -> string)
    (e : Engine.t) (now : Z) (c : Currency.t) (item : Js.Value)
    (d : Decision.t) (position : Position.t) :
  built_from toUpperCase toLowerCase c item d →
  Currency.tradeMetrics c = [] →
  Decision.decision d = close →
  JsMap.get (parseCurrencyId (Currency.currencyId c)).2 (Engine.positions e)
    = Some position →
  Decision.entryPrice d = 0%float
  ∧ executeDecision toFixed e now d =
    ({| Executed.message :=
          closing_message toFixed (Decision.positionType d)
            (display_name (Currency.currencyId c))
            {| Closed.position := position;
               Closed.currentPrice := 0;
               Closed.pnl := realized_pnl position 0 |};
        Executed.decision := close;
        Executed.currencyId := display_name (Currency.currencyId c) |},
     (closePosition e position 0).2).
Proof.
  intros (action & type & r & _ & _ & _ & _ & ->) Hempty Hclose Hstored.
  unfold parsed_decision in *. simpl in *.
  assert (Hzero : parsed_entry_price (Currency.tradeMetrics c) = 0%float).
  { by rewrite Hempty. }
  split; [done|].
  unfold executeDecision. simpl. rewrite Hclose, Hzero.
  destruct (parseCurrencyId (Currency.currencyId c)) as [network address].
  simpl in Hstored. by rewrite Hstored.
Qed.

Lemma close_decision_without_samples_witness :
  (executeDecision Sample.toFixed Sample.full_engine 9
     (parsed_decision (Sample.record "bid:solana:AAA" []) "CLOSE" "long"
        (Js.Str "Strong bullish trend"))).2
  = (closePosition Sample.full_engine
       {| Position.id := "pos_1";
          Position.currencyId := "bid:solana:AAA";
          Position.tokenAddress := "AAA";
          Position.network := "solana";
          Position.type := "long";
          Position.entryPrice := 2;
          Position.size := 30000;
          Position.timestamp := 1;
          Position.stopLoss := 0.90;
          Position.takeProfit := 1.15;
          Position.confidence := 0.7;
          Position.reasoning := Js.Str "Market analysis completed";
          Position.expectedProfit := (30000 * (1.15 - 1))%float |} 0).2.
Proof.
  assert (Hbuilt :
    built_from Sample.toUpperCase Sample.toLowerCase
      (Sample.record "bid:solana:AAA" [])
      (Sample.entry "bid:solana:AAA" "CLOSE")
      (parsed_decision (Sample.record "bid:solana:AAA" []) "CLOSE" "long"
         (Js.Str "Strong bullish trend"))).
  { by exists "CLOSE", "long", (Js.Str "Strong bullish trend"). }
  destruct (close_decision_without_samples Sample.toFixed
              Sample.toUpperCase Sample.toLowerCase Sample.full_engine
              9 (Sample.record "bid:solana:AAA" [])
              (Sample.entry "bid:solana:AAA" "CLOSE") _ _
              Hbuilt eq_refl eq_refl eq_refl) as [_ Hrun].
  by rewrite Hrun.
Defined.

(* ===================================================================== *)
(** ** A tag that names a member of Object.prototype *)
(* ===================================================================== *)

Lemma getRiskParameters_inherited (riskProfile : string) :
  Js.inherited riskProfile = true →
  getRiskParameters riskProfile = profile_inherited.
Proof.
  intros Hinherited. unfold getRiskParameters. rewrite Hinherited.
  destruct (String.eqb_spec riskProfile "low") as [->|_]; [done|].
  by destruct (String.eqb_spec riskProfile "high") as [->|_].
Qed.

Lemma unsized_ledger_reachable (riskProfile : string) (key : option string)
    (clean : bool) (e : Engine.t) :
  Js.inherited riskProfile = true →
  reachable riskProfile key clean e → unsized_ledger e.
Proof.
  intros Hinherited.
  induction 1 as [|clean e now d _ IH|clean e p price _ IH Hp].
  - unfold unsized_ledger. simpl.
    rewrite (getRiskParameters_inherited _ Hinherited).
    split_and!; try done. by left.
  - destruct IH as (Hcap & Hparams & Halloc & Hsizes).
    unfold openPosition.
    destruct (Js.ge _ _); [done|].
    destruct (parseCurrencyId (Decision.currencyId d)) as [network address].
    unfold unsized_ledger. simpl. rewrite Hcap, Hparams. simpl.
    split_and!; try done.
    + right. by destruct Halloc as [[-> _]| ->].
    + by apply Forall_set.
  - destruct IH as (Hcap & Hparams & Halloc & Hsizes).
    unfold unsized_ledger. simpl.
    assert (Hsize : Position.size p = nan).
    { apply get_Some_elem in Hp.
      by apply (proj1 (Forall_forall _ _) Hsizes _ Hp). }
    rewrite Hsize. split_and!; try done.
    + right. destruct Halloc as [[_ Hempty]| ->]; [|done].
      by rewrite Hempty in Hp.
    + by apply Forall_delete.
Qed.

(** X21. On an engine built with a tag that names a member of
    [Object.prototype] (["toString"], ["constructor"], ...), the capital
    guard never rejects: the position size is NaN, so is the allocated
    capital after the first open, and the comparison of the guard is false
    on every engine reached by opens and closes; every [openPosition] is
    accepted and stores a position of size NaN. *)
Theorem openPosition_inherited_profile (riskProfile : string)
    (key : option string) (clean : bool) (e : Engine.t) (now : Z)
    (d : Decision.t) :
  Js.inherited riskProfile = true →
  reachable riskProfile key clean e →
  ∃ position,
    (openPosition e now d).1 = Some position
    ∧ PrimFloat.is_nan (Position.size position) = true
    ∧ PrimFloat.is_nan (Engine.allocatedCapital (openPosition e now d).2)
      = true
    ∧ JsMap.get (Position.tokenAddress position)
        (Engine.positions (openPosition e now d).2) = Some position.
Proof.
  intros Hinherited Hreach.
  destruct (unsized_ledger_reachable _ _ _ _ Hinherited Hreach)
    as (Hcap & Hparams & Halloc & _).
  unfold openPosition. rewrite Hcap, Hparams.
  assert (Hguard : Js.ge (Engine.allocatedCapital e) (100000 * 0.9)%float
                   = false).
  { by destruct Halloc as [[-> _]| ->]. }
  rewrite Hguard.
  destruct (parseCurrencyId (Decision.currencyId d)) as [network address].
  eexists. split; [reflexivity|]. simpl.
  split_and!; try done.
  - by destruct Halloc as [[-> _]| ->].
  - apply get_set_eq.
Qed.

Lemma openPosition_inherited_profile_witness :
  ∃ position,
    (openPosition (new_engine "toString" None) 1
       (Sample.decide_on "bid:solana:AAA" open "long" 2)).1 = Some position
    ∧ PrimFloat.is_nan (Position.size position) = true.
Proof.
  destruct (openPosition_inherited_profile "toString" None true
              (new_engine "toString" None) 1
              (Sample.decide_on "bid:solana:AAA" open "long" 2)
              eq_refl (reach_new "toString" None))
    as (position & Hopen & Hsize & _).
  exists position. split; [exact Hopen|exact Hsize].
Defined.

(* ===================================================================== *)
(** ** The three readers of the latest sample *)
(* ===================================================================== *)

(** X22. Of the three functions that read the latest sample of a
    currency, two guard the [Ohlc] object and one does not: on a sample
    whose [Price] has no [Ohlc], the response parser takes the estimated
    price (or 0) as entry price, the liquidation sweep takes the
    estimated price (or the position's entry price) as closing price, and
    [fallbackDecision] throws. *)
Theorem latest_sample_without_ohlc (c : Currency.t)
    (latestMetric : Metric.t) (price : Metric.PriceT) :
  last (Currency.tradeMetrics c) = Some latestMetric →
  Metric.Price latestMetric = Some price →
  Metric.Ohlc price = None →
  let estimate := a ← Metric.Average price; Metric.Estimate a in
  parsed_entry_price (Currency.tradeMetrics c) = Js.num_or estimate 0
  ∧ (∀ (client : PriceClient) position,
       client (Position.currencyId position) 1%Z
       = Js.Ok (Some (Currency.tradeMetrics c)) →
       liquidation_price (Some client) position
       = Js.num_or estimate (Position.entryPrice position))
  ∧ fallback_of c = Js.Throw missing_ohlc.
Proof.
  intros Hlast Hprice Hohlc estimate. split_and!.
  - unfold parsed_entry_price, Metric.estimate_of, Metric.close_of.
    rewrite Hlast. simpl. rewrite Hprice. simpl. by rewrite Hohlc.
  - intros client position Hclient. unfold liquidation_price.
    rewrite Hclient.
    destruct (Currency.tradeMetrics c) as [|m ms] eqn:Hmetrics; [done|].
    unfold Metric.estimate_of, Metric.close_of. rewrite Hlast. simpl.
    rewrite Hprice. simpl. by rewrite Hohlc.
  - apply fallback_of_throws. unfold carries_ohlc.
    rewrite Hlast, Hprice, Hohlc. apply bool_decide_eq_false.
    by intros [? ?].
Qed.

Lemma latest_sample_without_ohlc_witness :
  parsed_entry_price [Sample.no_ohlc] = 1%float
  ∧ fallback_of (Sample.record "bid:solana:AAA" [Sample.no_ohlc])
    = Js.Throw missing_ohlc.
Proof.
  destruct (latest_sample_without_ohlc
              (Sample.record "bid:solana:AAA" [Sample.no_ohlc])
              Sample.no_ohlc
              {| Metric.Average :=
                   Some {| Metric.Estimate := Some 1%float;
                           Metric.WeightedSimpleMoving := None |};
                 Metric.Ohlc := None |}
              eq_refl eq_refl eq_refl) as (Hentry & _ & Hthrow).
  split; [exact Hentry|exact Hthrow].
Defined.
